(** * kale-miner, OpenCL host program (clprog.cpp)

    A shallow embedding of [releaseResources], [getPlatform] and
    [executeKernel] from [src/clprog.cpp], together with the properties of
    the dispatch protocol that the design document states about them.

    The OpenCL driver, the file system and the device kernel are external
    to the program.  They are modelled as an oracle ([Driver]) that fixes
    the answer of every driver call; the program itself is a computation
    in a small monad that records every externally visible action (driver
    call, object creation, release, stream output, store into the caller's
    memory) in a trace, and that distinguishes the four ways a C++
    statement sequence can end: falling through, [return v],
    [exit(EXIT_FAILURE)] and undefined behaviour.

    Integer widths follow an LP64 target: [int], [cl_int] are 32-bit
    signed, [cl_uint] is 32-bit unsigned, [size_t], [cl_ulong] and
    [std::uint64_t] are 64-bit unsigned. *)

From Stdlib Require Import ZArith List String Ascii Bool Lia DecimalString.
Import ListNotations.
Local Open Scope Z_scope.

(* ================================================================== *)
(** ** Machine integers *)

Module Machine.

(** Conversion to [unsigned int] / [cl_uint]. *)
Definition u32 (x : Z) : Z := x mod 2 ^ 32.

(** Conversion to [size_t] / [std::uint64_t] / [cl_ulong]. *)
Definition u64 (x : Z) : Z := x mod 2 ^ 64.

(** Conversion to [int] / [cl_int] (two's complement). *)
Definition i32 (x : Z) : Z := (x + 2 ^ 31) mod 2 ^ 32 - 2 ^ 31.

(** Values representable in an [int]. *)
Definition int_range (x : Z) : Prop := - 2 ^ 31 <= x < 2 ^ 31.

(** Values representable in a [cl_uint]. *)
Definition uint_range (x : Z) : Prop := 0 <= x < 2 ^ 32.

(** Values representable in a [size_t]. *)
Definition size_range (x : Z) : Prop := 0 <= x < 2 ^ 64.

End Machine.
Import Machine.

(* ================================================================== *)
(** ** OpenCL objects, driver calls and the trace *)

(** An object handle ([cl_context], [cl_mem], ...); [0] is [nullptr]. *)
Definition handle := Z.
Definition cl_int := Z.

Definition nullptr : handle := 0.

(** Constants of the Khronos header [CL/cl.h]. *)
Definition CL_SUCCESS : cl_int := 0.
Definition CL_TRUE : bool := true.
Definition CL_MEM_READ_WRITE : Z := 1.
Definition CL_MEM_WRITE_ONLY : Z := 2.
Definition CL_MEM_READ_ONLY : Z := 4.
Definition CL_MEM_COPY_HOST_PTR : Z := 32.

(** [sizeof] of the OpenCL scalar and handle types. *)
Definition sizeof_cl_uchar : Z := 1.
Definition sizeof_cl_int : Z := 4.
Definition sizeof_cl_ulong : Z := 8.
Definition sizeof_cl_mem : Z := 8.

Definition is_null (h : handle) : bool := h =? nullptr.

(** The five kinds of reference-counted objects the program releases. *)
Inductive objkind := KMem | KKernel | KProgram | KQueue | KContext.

(** [cl_device_info] selectors used by the program. *)
Inductive devparam :=
| DEVICE_NAME | DEVICE_VERSION | DEVICE_MAX_COMPUTE_UNITS
| DEVICE_MAX_WORK_GROUP_SIZE | DEVICE_MAX_WORK_ITEM_SIZES
| DEVICE_GLOBAL_MEM_SIZE.

(** The value bound by [clSetKernelArg]. *)
Inductive argval :=
| ArgInt (v : Z) | ArgULong (v : Z) | ArgMem (h : handle).

(** Driver calls whose result is a status code.  The two forms of each
    query (size or count first, then contents) are kept apart. *)
Inductive call :=
| GetPlatformIDsCount                       (* (0, nullptr, &numPlatforms) *)
| GetPlatformIDs (num_entries : Z)          (* (n, platforms.data(), nullptr) *)
| GetPlatformInfoSize (id : handle)         (* (id, NAME, 0, nullptr, &len) *)
| GetPlatformInfo (id : handle) (size : Z)  (* (id, NAME, len, buf, nullptr) *)
| GetDeviceIDsCount (platformId : handle)
| GetDeviceIDs (platformId : handle) (num_entries : Z)
| GetDeviceInfo (dev : handle) (p : devparam)
| BuildProgram (prog dev : handle) (options : string)
| GetProgramBuildInfoSize (prog dev : handle)
| GetProgramBuildInfo (prog dev : handle) (size : Z)
| EnqueueWriteBuffer (q buf : handle) (blocking : bool) (size value : Z)
| SetKernelArg (k : handle) (index size : Z) (v : argval)
| EnqueueNDRangeKernel (q k : handle) (globalWorkSize localWorkSize : Z)
| Finish (q : handle)
| EnqueueReadBuffer (q buf : handle) (blocking : bool) (size : Z).

(** Driver calls that create an object. *)
Inductive creation :=
| CreateContext (dev : handle)
| CreateCommandQueue (withProperties : bool) (ctx dev : handle)
| CreateProgramWithSource (ctx : handle) (source : string)
| CreateKernel (prog : handle) (name : string)
| CreateBuffer (ctx : handle) (flags size : Z).

Definition creation_kind (c : creation) : objkind :=
  match c with
  | CreateContext _ => KContext
  | CreateCommandQueue _ _ _ => KQueue
  | CreateProgramWithSource _ _ => KProgram
  | CreateKernel _ _ => KKernel
  | CreateBuffer _ _ _ => KMem
  end.

(** Text written to [std::cout] and [std::cerr].  Only the identity of a
    message and the values it prints are kept. *)
Inductive message :=
| MClError (line : Z) (err : cl_int)       (* CL_CALL diagnostic *)
| MPlatformsHeader                          (* "OpenCL platforms:" *)
| MPlatformLine (matched : bool) (name : string)
| MDeviceAttribute (dev : handle) (p : devparam)
| MInvalidDevice                            (* "Invalid device ID" *)
| MError (err : cl_int)                     (* "Error: " << error *)
| MLoadFailed                               (* "Failed to load OpenCL kernel files." *)
| MBuildError (log : string)                (* "Kernel build error: " ... *)
| MAllocFailed.                             (* "Error allocating buffer." *)

Inductive event :=
| EvCall (c : call) (err : cl_int)
| EvCreate (c : creation) (h : handle) (err : cl_int)
| EvRelease (k : objkind) (h : handle)
| EvOpen (path : string) (opened : bool)
| EvCout (m : message)
| EvCerr (m : message)
| EvStoreOutput (bytes : list Z)           (* store through [output] *)
| EvStoreValidNonce (v : Z).               (* store through [validNonce] *)

Definition trace := list event.

(* ================================================================== *)
(** ** The monad of C++ statement sequences *)

Inductive fault := OutOfBounds | DivisionByZero | InvalidRange.

Inductive result (A : Type) :=
| Ok (a : A)            (* the statement completed *)
| Return (v : Z)        (* [return v;] was executed *)
| Exit                  (* [exit(EXIT_FAILURE)] was called *)
| Fault (f : fault).    (* undefined behaviour *)
Arguments Ok {A} a.
Arguments Return {A} v.
Arguments Exit {A}.
Arguments Fault {A} f.

Definition M (A : Type) : Type := result A * trace.

Definition ret {A} (a : A) : M A := (Ok a, []).

Definition bind {A B} (m : M A) (f : A -> M B) : M B :=
  match m with
  | (Ok a, t) => let (r, t') := f a in (r, t ++ t')
  | (Return v, t) => (Return v, t)
  | (Exit, t) => (Exit, t)
  | (Fault x, t) => (Fault x, t)
  end.

Declare Scope cl_scope.
Delimit Scope cl_scope with cl.
Notation "x <- m ;; k" := (bind m (fun x => k))
  (at level 61, m at next level, right associativity) : cl_scope.
Notation "' pat <- m ;; k" :=
  (bind m (fun x => match x with pat => k end))
  (at level 61, pat pattern, m at next level, right associativity) : cl_scope.
Notation "m ;;; k" := (bind m (fun _ => k))
  (at level 61, right associativity) : cl_scope.
Local Open Scope cl_scope.

Definition emit (e : event) : M unit := (Ok tt, [e]).
Definition return_ {A} (v : Z) : M A := (Return v, []).
Definition exit_failure {A} : M A := (Exit, []).
Definition undefined {A} (f : fault) : M A := (Fault f, []).

Definition cout (m : message) : M unit := emit (EvCout m).
Definition cerr (m : message) : M unit := emit (EvCerr m).

(* ================================================================== *)
(** ** ResourceLedger: [releaseResources] (clprog.cpp, lines 32-41) *)

(** [if (h) clReleaseX(h);] *)
Definition release (k : objkind) (h : handle) : M unit :=
  if is_null h then ret tt else emit (EvRelease k h).

(** [for (int i = 0; i < bufferCount; i++) if (buffers[i]) ...]: [n]
    iterations remain, the next index is [i].  Reading past the end of
    the array is undefined. *)
Fixpoint releaseBuffers (buffers : list handle) (n : nat) (i : nat) : M unit :=
  match n with
  | O => ret tt
  | S n' =>
      match nth_error buffers i with
      | None => undefined OutOfBounds
      | Some b => release KMem b ;;; releaseBuffers buffers n' (S i)
      end
  end.

Definition releaseResources (context commandQueue program kernel : handle)
           (buffers : list handle) (bufferCount : Z) : M unit :=
  releaseBuffers buffers (Z.to_nat bufferCount) 0 ;;;
  release KKernel kernel ;;;
  release KProgram program ;;;
  release KQueue commandQueue ;;;
  release KContext context.

(* ================================================================== *)
(** ** WorkPartitioner (clprog.cpp, lines 193-194) *)

(** [std::min(static_cast<size_t>(threadsPerBlock), maxWorkGroupSize)] *)
Definition localWorkSize (threadsPerBlock maxWorkGroupSize : Z) : Z :=
  Z.min (u64 threadsPerBlock) maxWorkGroupSize.

(** [((batchSize + localWorkSize - 1) / localWorkSize) * localWorkSize],
    every operation in 64-bit unsigned arithmetic; [None] when the
    divisor is zero. *)
Definition globalWorkSize (batchSize local : Z) : option Z :=
  if local =? 0 then None
  else Some (u64 (u64 (u64 (batchSize + local) - 1) / local * local)).

Definition workPartition (batchSize threadsPerBlock maxWorkGroupSize : Z)
  : option (Z * Z) :=
  let local := localWorkSize threadsPerBlock maxWorkGroupSize in
  match globalWorkSize batchSize local with
  | None => None
  | Some global => Some (local, global)
  end.

(* ================================================================== *)
(** ** The environment: driver, file system and device kernel *)

(** The answers of the environment during one call of [executeKernel].
    [status] is the status code of a call, [create] the handle and the
    error code of a creation; the remaining fields are what the driver
    stores through the out-pointers of the queries and read-backs, and
    what [std::ifstream] finds on disk ([None]: the file cannot be
    opened; [Some s]: it opens and reading it to the end yields [s]; a
    read that fails after a successful open, which ends the call with a
    C++ exception, is not among these answers).  What the device kernel
    did is visible to the host only through [found_out], [digest_out]
    and [nonce_out]. *)
Record Driver := {
  status : call -> cl_int;
  create : creation -> handle * cl_int;
  numPlatforms_out : Z;
  platforms_out : list handle;
  platformNameSize_out : handle -> Z;
  platformName_out : handle -> list ascii;
  numDevices_out : handle -> Z;
  devices_out : handle -> list handle;
  maxWorkGroupSize_out : handle -> Z;
  buildLogSize_out : handle -> handle -> Z;
  buildLog_out : handle -> handle -> list ascii;
  kernel_cl : option string;
  keccak_cl : option string;
  found_out : Z;
  digest_out : list Z;
  nonce_out : Z
}.

(** The parameters of [executeKernel].  [platform] is a [const char*]:
    [None] is [nullptr], [Some s] a C string with content [s].  The two
    result pointers [output] and [validNonce] designate the caller's
    storage [Host]. *)
Record Args := {
  platform : option string;
  deviceId : Z;
  data : list Z;
  dataSize : Z;
  startNonce : Z;
  nonceOffset : Z;
  batchSize : Z;
  difficulty : Z;
  threadsPerBlock : Z;
  showDeviceInfo : bool
}.

Record Host := {
  output : list Z;
  validNonce : Z
}.

(* ================================================================== *)
(** ** Containers *)

(** [std::vector<T> v(n)] after the driver has written [written] through
    [v.data()] with room for [n] entries: [n] elements, those the driver
    did not write are value-initialised. *)
Definition vector_fill {A} (n : Z) (written : list A) (d : A) : list A :=
  firstn (Z.to_nat n) (written ++ repeat d (Z.to_nat n)).

(** [v[i]] on a vector of handles of size [n], [i] already converted to
    [size_type]; an index outside [0, n) is undefined. *)
Definition vector_at (n : Z) (written : list handle) (i : Z) : M handle :=
  if (0 <=? i) && (i <? n)
  then ret (nth (Z.to_nat i) written nullptr)
  else undefined OutOfBounds.

(** The C string starting at [buf.data()]: the characters before the
    first NUL; [None] when the buffer holds no NUL. *)
Fixpoint c_str (buf : list ascii) : option string :=
  match buf with
  | [] => None
  | c :: rest =>
      if Ascii.eqb c zero then Some EmptyString
      else match c_str rest with
           | None => None
           | Some s => Some (String c s)
           end
  end.

(** [std::ifstream::is_open]. *)
Definition is_open (file : option string) : bool :=
  match file with Some _ => true | None => false end.

(** [std::to_string] of an [int]. *)
Definition to_string (v : Z) : string := NilZero.string_of_int (Z.to_int v).

(** The effect of a trace on the caller's storage. *)
Definition host_step (h : Host) (e : event) : Host :=
  match e with
  | EvStoreOutput bytes =>
      {| output := vector_fill 32 bytes 0 ++ skipn 32 (output h);
         validNonce := validNonce h |}
  | EvStoreValidNonce v => {| output := output h; validNonce := v |}
  | _ => h
  end.

Definition host_after (t : trace) (h : Host) : Host := fold_left host_step t h.

(* ================================================================== *)
(** ** The program *)

Section Program.

(** The driver of this call, and the API version the program is compiled
    against (a macro of the build, used at lines 112 and 144). *)
Variable drv : Driver.
Variable CL_TARGET_OPENCL_VERSION : Z.

(** A driver call; its status code is the value of the expression. *)
Definition invoke (c : call) : M cl_int :=
  (Ok (status drv c), [EvCall c (status drv c)]).

(** A creation call; it yields the handle and sets [error]. *)
Definition construct (c : creation) : M (handle * cl_int) :=
  (Ok (create drv c), [EvCreate c (fst (create drv c)) (snd (create drv c))]).

(** [CL_CALL(call)] (lines 22-30), expanded at line [line]. *)
Definition CL_CALL (line : Z) (c : M cl_int) : M unit :=
  err <- c ;;
  if negb (err =? CL_SUCCESS)
  then cout (MClError line err) ;;; exit_failure
  else ret tt.

(** [getPlatform] (lines 43-49). *)
Definition getPlatform (id : handle) : M string :=
  CL_CALL 45 (invoke (GetPlatformInfoSize id)) ;;;
  let len := u64 (platformNameSize_out drv id) in
  CL_CALL 47 (invoke (GetPlatformInfo id len)) ;;;
  let buf := vector_fill len (platformName_out drv id) zero in
  if len =? 0 then undefined InvalidRange
  else ret (string_of_list_ascii (firstn (Z.to_nat (len - 1)) buf)).

(** [platform && *platform && name == platform] *)
Definition hint_matches (hint : option string) (name : string) : bool :=
  match hint with
  | None => false
  | Some s => negb (String.eqb s EmptyString) && String.eqb name s
  end.

(** The loop of lines 65-70: [n] iterations remain, the loop variable is
    [i], and [platformIndex] is the index found so far. *)
Fixpoint platformLoop (hint : option string) (platforms : Z -> M handle)
         (n : nat) (i : Z) (platformIndex : Z) : M Z :=
  match n with
  | O => ret platformIndex
  | S n' =>
      id <- platforms i ;;
      name <- getPlatform id ;;
      let matched := (platformIndex <? 0) && hint_matches hint name in
      let platformIndex := if matched then i32 i else platformIndex in
      cout (MPlatformLine matched name) ;;;
      platformLoop hint platforms n' (i + 1) platformIndex
  end.

(** Lines 59-71: the platform the call runs on. *)
Definition selectPlatform (a : Args) : M handle :=
  CL_CALL 59 (invoke GetPlatformIDsCount) ;;;
  let numPlatforms := u32 (numPlatforms_out drv) in
  CL_CALL 61 (invoke (GetPlatformIDs numPlatforms)) ;;;
  let platforms := vector_at numPlatforms (platforms_out drv) in
  cout MPlatformsHeader ;;;
  platformIndex <- platformLoop (platform a) platforms
                                (Z.to_nat numPlatforms) 0 (-1) ;;
  if negb (platformIndex =? -1)
  then platforms (u64 platformIndex)
  else platforms 0.

(** Lines 84-105: the optional device diagnostics. *)
Definition printDeviceInfo (selectedDevice : handle) : M unit :=
  CL_CALL 91 (invoke (GetDeviceInfo selectedDevice DEVICE_NAME)) ;;;
  CL_CALL 92 (invoke (GetDeviceInfo selectedDevice DEVICE_VERSION)) ;;;
  CL_CALL 93 (invoke (GetDeviceInfo selectedDevice DEVICE_MAX_COMPUTE_UNITS)) ;;;
  CL_CALL 94 (invoke (GetDeviceInfo selectedDevice DEVICE_MAX_WORK_GROUP_SIZE)) ;;;
  CL_CALL 95 (invoke (GetDeviceInfo selectedDevice DEVICE_MAX_WORK_ITEM_SIZES)) ;;;
  CL_CALL 96 (invoke (GetDeviceInfo selectedDevice DEVICE_GLOBAL_MEM_SIZE)) ;;;
  cout (MDeviceAttribute selectedDevice DEVICE_NAME) ;;;
  cout (MDeviceAttribute selectedDevice DEVICE_MAX_COMPUTE_UNITS) ;;;
  cout (MDeviceAttribute selectedDevice DEVICE_MAX_WORK_GROUP_SIZE) ;;;
  cout (MDeviceAttribute selectedDevice DEVICE_MAX_WORK_ITEM_SIZES) ;;;
  cout (MDeviceAttribute selectedDevice DEVICE_GLOBAL_MEM_SIZE).

(** Lines 73-105: the device the call runs on.  In [deviceId >=
    numDevices] the [int] is converted to [unsigned int]; [devices[deviceId]]
    converts it to [size_t]. *)
Definition selectDevice (a : Args) (platformId : handle) : M handle :=
  CL_CALL 73 (invoke (GetDeviceIDsCount platformId)) ;;;
  let numDevices := u32 (numDevices_out drv platformId) in
  if u32 (deviceId a) >=? numDevices
  then cerr MInvalidDevice ;;; return_ (-1)
  else
    CL_CALL 81 (invoke (GetDeviceIDs platformId numDevices)) ;;;
    selectedDevice <- vector_at numDevices (devices_out drv platformId)
                                (u64 (deviceId a)) ;;
    (if showDeviceInfo a then printDeviceInfo selectedDevice else ret tt) ;;;
    ret selectedDevice.

(** Lines 59-105, DeviceEnumerator. *)
Definition enumerate (a : Args) : M handle :=
  platformId <- selectPlatform a ;;
  selectDevice a platformId.

(** Lines 107-121: context and command queue. *)
Definition createQueue (selectedDevice : handle) : M (handle * handle) :=
  '(context, error) <- construct (CreateContext selectedDevice) ;;
  if is_null context
  then cerr (MError error) ;;; return_ (-1)
  else
    '(commandQueue, error) <-
       construct (CreateCommandQueue (200 <=? CL_TARGET_OPENCL_VERSION)
                                     context selectedDevice) ;;
    if is_null commandQueue
    then cerr (MError error) ;;;
         releaseResources context commandQueue nullptr nullptr [] 0 ;;;
         return_ (-1)
    else ret (context, commandQueue).

(** Lines 123-136: the two source fragments, hash primitive first. *)
Definition loadSource (context commandQueue : handle) : M string :=
  emit (EvOpen "kernel.cl" (is_open (kernel_cl drv))) ;;;
  emit (EvOpen "utils/keccak.cl" (is_open (keccak_cl drv))) ;;;
  match kernel_cl drv, keccak_cl drv with
  | Some kernelSource, Some keccakSource =>
      ret (keccakSource ++ String "010" EmptyString ++ kernelSource)%string
  | _, _ =>
      cerr MLoadFailed ;;;
      releaseResources context commandQueue nullptr nullptr [] 0 ;;;
      return_ (-1)
  end.

(** Lines 138-160, ProgramBuilder: program and kernel. *)
Definition buildKernel (selectedDevice context commandQueue : handle)
           (fullSource : string) : M (handle * handle) :=
  '(program, error) <- construct (CreateProgramWithSource context fullSource) ;;
  if is_null program
  then cerr (MError error) ;;;
       releaseResources context commandQueue program nullptr [] 0 ;;;
       return_ (-1)
  else
    let buildOptions :=
      ("-D CL_TARGET_OPENCL_VERSION=" ++ to_string CL_TARGET_OPENCL_VERSION)%string in
    error <- invoke (BuildProgram program selectedDevice buildOptions) ;;
    if negb (error =? CL_SUCCESS)
    then
      invoke (GetProgramBuildInfoSize program selectedDevice) ;;;
      let logSize := u64 (buildLogSize_out drv program selectedDevice) in
      invoke (GetProgramBuildInfo program selectedDevice logSize) ;;;
      let buildLog :=
        vector_fill logSize (buildLog_out drv program selectedDevice) zero in
      match c_str buildLog with
      | None => undefined OutOfBounds
      | Some text =>
          cerr (MBuildError text) ;;;
          releaseResources context commandQueue program nullptr [] 0 ;;;
          return_ (-1)
      end
    else
      '(kernel, error) <- construct (CreateKernel program "run") ;;
      if is_null kernel || negb (error =? CL_SUCCESS)
      then cerr (MError error) ;;;
           releaseResources context commandQueue program kernel [] 0 ;;;
           return_ (-1)
      else ret (program, kernel).

(** Lines 162-173, BufferSet: the four device buffers, in the order
    InputData, FoundFlag, OutputDigest, OutputNonce. *)
Definition allocateBuffers (a : Args) (context commandQueue program kernel : handle)
  : M (list handle) :=
  '(deviceDataBuffer, _) <-
     construct (CreateBuffer context (Z.lor CL_MEM_READ_ONLY CL_MEM_COPY_HOST_PTR)
                             (u64 (dataSize a * sizeof_cl_uchar))) ;;
  '(foundBuffer, _) <-
     construct (CreateBuffer context CL_MEM_READ_WRITE sizeof_cl_int) ;;
  '(outputBuffer, _) <-
     construct (CreateBuffer context CL_MEM_WRITE_ONLY (32 * sizeof_cl_uchar)) ;;
  '(validNonceBuffer, _) <-
     construct (CreateBuffer context CL_MEM_WRITE_ONLY sizeof_cl_ulong) ;;
  let buffers := [deviceDataBuffer; foundBuffer; outputBuffer; validNonceBuffer] in
  if existsb is_null buffers
  then cerr MAllocFailed ;;;
       releaseResources context commandQueue program kernel buffers 4 ;;;
       return_ (-1)
  else ret buffers.

(** Lines 174-189: the flag is cleared and the nine arguments are bound;
    the status codes are accumulated with [|=]. *)
Definition bindArguments (a : Args) (context commandQueue program kernel : handle)
           (buffers : list handle) : M unit :=
  let deviceDataBuffer := nth 0 buffers nullptr in
  let foundBuffer := nth 1 buffers nullptr in
  let outputBuffer := nth 2 buffers nullptr in
  let validNonceBuffer := nth 3 buffers nullptr in
  let foundValue := 0 in
  error <- invoke (EnqueueWriteBuffer commandQueue foundBuffer CL_TRUE
                                      sizeof_cl_int foundValue) ;;
  e0 <- invoke (SetKernelArg kernel 0 sizeof_cl_int (ArgInt (dataSize a))) ;;
  let error := Z.lor error e0 in
  e1 <- invoke (SetKernelArg kernel 1 sizeof_cl_ulong (ArgULong (startNonce a))) ;;
  let error := Z.lor error e1 in
  e2 <- invoke (SetKernelArg kernel 2 sizeof_cl_int (ArgInt (nonceOffset a))) ;;
  let error := Z.lor error e2 in
  e3 <- invoke (SetKernelArg kernel 3 sizeof_cl_ulong (ArgULong (batchSize a))) ;;
  let error := Z.lor error e3 in
  e4 <- invoke (SetKernelArg kernel 4 sizeof_cl_int (ArgInt (difficulty a))) ;;
  let error := Z.lor error e4 in
  e5 <- invoke (SetKernelArg kernel 5 sizeof_cl_mem (ArgMem deviceDataBuffer)) ;;
  let error := Z.lor error e5 in
  e6 <- invoke (SetKernelArg kernel 6 sizeof_cl_mem (ArgMem foundBuffer)) ;;
  let error := Z.lor error e6 in
  e7 <- invoke (SetKernelArg kernel 7 sizeof_cl_mem (ArgMem outputBuffer)) ;;
  let error := Z.lor error e7 in
  e8 <- invoke (SetKernelArg kernel 8 sizeof_cl_mem (ArgMem validNonceBuffer)) ;;
  let error := Z.lor error e8 in
  if negb (error =? CL_SUCCESS)
  then cerr (MError error) ;;;
       releaseResources context commandQueue program kernel buffers 4 ;;;
       return_ (-1)
  else ret tt.

(** [clEnqueueReadBuffer] of [size] bytes into the caller's storage: the
    driver stores through the destination pointer during the call. *)
Definition readBuffer (q buf : handle) (size : Z) (stored : event) : M cl_int :=
  err <- invoke (EnqueueReadBuffer q buf CL_TRUE size) ;;
  emit stored ;;;
  ret err.

(** Lines 191-209, WorkPartitioner and DispatchEngine. *)
Definition dispatch (a : Args) (selectedDevice context commandQueue program kernel : handle)
           (buffers : list handle) : M Z :=
  let foundBuffer := nth 1 buffers nullptr in
  let outputBuffer := nth 2 buffers nullptr in
  let validNonceBuffer := nth 3 buffers nullptr in
  invoke (GetDeviceInfo selectedDevice DEVICE_MAX_WORK_GROUP_SIZE) ;;;
  let maxWorkGroupSize := u64 (maxWorkGroupSize_out drv selectedDevice) in
  match workPartition (batchSize a) (threadsPerBlock a) maxWorkGroupSize with
  | None => undefined DivisionByZero
  | Some (localWorkSize, globalWorkSize) =>
      error <- invoke (EnqueueNDRangeKernel commandQueue kernel
                                            globalWorkSize localWorkSize) ;;
      if negb (error =? CL_SUCCESS)
      then cerr (MError error) ;;;
           releaseResources context commandQueue program kernel buffers 4 ;;;
           return_ (-1)
      else
        invoke (Finish commandQueue) ;;;
        CL_CALL 203 (invoke (EnqueueReadBuffer commandQueue foundBuffer CL_TRUE
                                               sizeof_cl_int)) ;;;
        let foundValue := i32 (found_out drv) in
        (if foundValue =? 1
         then
           CL_CALL 205 (readBuffer commandQueue outputBuffer (32 * sizeof_cl_uchar)
                                   (EvStoreOutput (digest_out drv))) ;;;
           CL_CALL 206 (readBuffer commandQueue validNonceBuffer sizeof_cl_ulong
                                   (EvStoreValidNonce (u64 (nonce_out drv))))
         else ret tt) ;;;
        releaseResources context commandQueue program kernel buffers 4 ;;;
        return_ foundValue
  end.

(** Lines 107-209: everything that happens once the device is known. *)
Definition runOnDevice (a : Args) (selectedDevice : handle) : M Z :=
  '(context, commandQueue) <- createQueue selectedDevice ;;
  fullSource <- loadSource context commandQueue ;;
  '(program, kernel) <- buildKernel selectedDevice context commandQueue fullSource ;;
  buffers <- allocateBuffers a context commandQueue program kernel ;;
  bindArguments a context commandQueue program kernel buffers ;;;
  dispatch a selectedDevice context commandQueue program kernel buffers.

(** [executeKernel] (lines 51-210). *)
Definition executeKernel (a : Args) : M Z :=
  selectedDevice <- enumerate a ;;
  runOnDevice a selectedDevice.

End Program.

(** How a call of [executeKernel] ends, as its caller sees it. *)
Inductive outcome :=
| Returned (v : Z)
| Exited
| Undefined (f : fault).

Definition outcome_of (r : result Z) : outcome :=
  match r with
  | Ok v => Returned v
  | Return v => Returned v
  | Exit => Exited
  | Fault f => Undefined f
  end.

(** The observable behaviour of one call: how it ends, what it did, and
    the caller's storage afterwards. *)
Definition run_executeKernel (drv : Driver) (version : Z) (a : Args) (h : Host)
  : outcome * trace * Host :=
  let (r, t) := executeKernel drv version a in
  (outcome_of r, t, host_after t h).

(* ================================================================== *)
(** ** Sample environments

    A driver on which every call succeeds, with one platform and one GPU
    device; the variants used below change one answer at a time. *)

Definition sample_name : list ascii :=
  list_ascii_of_string "Portable CL" ++ [zero].

Definition sample_create (c : creation) : handle * cl_int :=
  match c with
  | CreateContext _ => (1000, 0)
  | CreateCommandQueue _ _ _ => (2000, 0)
  | CreateProgramWithSource _ _ => (3000, 0)
  | CreateKernel _ _ => (4000, 0)
  | CreateBuffer _ flags size => (5000 + 10 * flags + size, 0)
  end.

Definition sample_driver (st : call -> cl_int) (cr : creation -> handle * cl_int)
           (numPlatforms numDevices : Z) (kernel_file : option string) (found : Z)
  : Driver :=
  {| status := st;
     create := cr;
     numPlatforms_out := numPlatforms;
     platforms_out := [100];
     platformNameSize_out := fun _ => 12;
     platformName_out := fun _ => sample_name;
     numDevices_out := fun _ => numDevices;
     devices_out := fun _ => [200];
     maxWorkGroupSize_out := fun _ => 256;
     buildLogSize_out := fun _ _ => 11;
     buildLog_out := fun _ _ => list_ascii_of_string "error: foo" ++ [zero];
     kernel_cl := kernel_file;
     keccak_cl := Some "keccak"%string;
     found_out := found;
     digest_out := repeat 171 32;
     nonce_out := 77 |}.

Definition all_succeed : call -> cl_int := fun _ => CL_SUCCESS.

Definition good_driver (found : Z) : Driver :=
  sample_driver all_succeed sample_create 1 1 (Some "kernel"%string) found.

Definition sample_args (device : Z) : Args :=
  {| platform := None;
     deviceId := device;
     data := repeat 0 80;
     dataSize := 80;
     startNonce := 0;
     nonceOffset := 1;
     batchSize := 1024;
     difficulty := 4;
     threadsPerBlock := 256;
     showDeviceInfo := false |}.

Definition sample_host : Host := {| output := repeat 0 32; validNonce := 0 |}.

(* ================================================================== *)
(** ** Specifications the properties are stated with *)

(** [ceil(a / b)] for [b > 0]. *)
Definition ceil_div (a b : Z) : Z :=
  a / b + (if a mod b =? 0 then 0 else 1).

(** What the design document states about the work partitioner at one
    triple. *)
Definition well_partitioned (batchSize threadsPerBlock maxWorkGroupSize : Z) : Prop :=
  exists localSize globalSize,
    workPartition batchSize threadsPerBlock maxWorkGroupSize
      = Some (localSize, globalSize) /\
    localSize = Z.min threadsPerBlock maxWorkGroupSize /\
    globalSize = ceil_div batchSize localSize * localSize /\
    batchSize <= globalSize /\
    (localSize | globalSize).

(** The fixed release order: buffers by index, kernel, program, queue,
    context, null handles left out. *)
Definition release_order (context commandQueue program kernel : handle)
           (buffers : list handle) : list (objkind * handle) :=
  filter (fun x => negb (is_null (snd x)))
         (map (pair KMem) buffers
          ++ [(KKernel, kernel); (KProgram, program);
              (KQueue, commandQueue); (KContext, context)]).

(** The release calls of a list of objects. *)
Definition releases (l : list (objkind * handle)) : trace :=
  map (fun x => EvRelease (fst x) (snd x)) l.

(** The objects a trace releases, in order. *)
Fixpoint released (t : trace) : list (objkind * handle) :=
  match t with
  | [] => []
  | EvRelease k h :: t' => (k, h) :: released t'
  | _ :: t' => released t'
  end.

(** The objects a trace creates (non-null results), in order. *)
Fixpoint created (t : trace) : list (objkind * handle) :=
  match t with
  | [] => []
  | EvCreate c h _ :: t' =>
      if is_null h then created t' else (creation_kind c, h) :: created t'
  | _ :: t' => created t'
  end.

(** Two calls of [releaseResources] on the same resource set. *)
Definition releaseTwice (context commandQueue program kernel : handle)
           (buffers : list handle) (bufferCount : Z) : M unit :=
  releaseResources context commandQueue program kernel buffers bufferCount ;;;
  releaseResources context commandQueue program kernel buffers bufferCount.

(* ================================================================== *)
(** ** Machine integers: facts *)

Lemma u64_small x : size_range x -> u64 x = x.
Proof. unfold size_range, u64. intros H. now apply Z.mod_small. Qed.

Lemma u32_range x : uint_range (u32 x).
Proof. unfold uint_range, u32. apply Z.mod_pos_bound. lia. Qed.

Lemma u32_small x : uint_range x -> u32 x = x.
Proof. unfold uint_range, u32. intros H. now apply Z.mod_small. Qed.

Lemma u32_negative x : - 2 ^ 31 <= x < 0 -> u32 x = x + 2 ^ 32.
Proof.
  unfold u32. intros H.
  replace x with (x + 2 ^ 32 + (-1) * 2 ^ 32) at 1 by ring.
  rewrite Z.mod_add by lia. apply Z.mod_small. lia.
Qed.

Lemma i32_small x : int_range x -> i32 x = x.
Proof.
  unfold int_range, i32. intros H.
  rewrite Z.mod_small by lia. ring.
Qed.

(** [a |= b] leaves [CL_SUCCESS] only if both operands are [CL_SUCCESS]. *)
Lemma lor_success a b : Z.lor a b = CL_SUCCESS -> a = CL_SUCCESS /\ b = CL_SUCCESS.
Proof. unfold CL_SUCCESS. apply Z.lor_eq_0_iff. Qed.

(* ================================================================== *)
(** ** WorkPartitioner: facts *)

Lemma ceil_div_formula a b :
  0 <= a -> 0 < b -> (a + b - 1) / b = ceil_div a b.
Proof.
  intros Ha Hb. unfold ceil_div.
  pose proof (Z.div_mod a b ltac:(lia)) as E.
  pose proof (Z.mod_pos_bound a b Hb) as R.
  destruct (Z.eqb_spec (a mod b) 0) as [Z0|NZ].
  - symmetry. apply Z.div_unique with (r := b - 1); lia.
  - symmetry. apply Z.div_unique with (r := a mod b - 1); lia.
Qed.

Lemma ceil_div_bounds a b :
  0 <= a -> 0 < b -> a <= ceil_div a b * b < a + b.
Proof.
  intros Ha Hb. unfold ceil_div.
  pose proof (Z.div_mod a b ltac:(lia)) as E.
  pose proof (Z.mod_pos_bound a b Hb) as R.
  destruct (Z.eqb_spec (a mod b) 0); nia.
Qed.

(** The counterexample to C3: near the top of the 64-bit range the sum
    [batchSize + localWorkSize - 1] wraps around, and a zero
    threads-per-block divides by zero. *)
Lemma workPartition_wraps :
  ~ well_partitioned (2 ^ 64 - 1) 256 256 /\ ~ well_partitioned 1024 0 256.
Proof.
  split; intros (l & g & H & _ & _ & Hge & _).
  - vm_compute in H. injection H as <- <-. lia.
  - vm_compute in H. discriminate H.
Qed.

(** C3 (amended): for every triple with [threadsPerBlock >= 1],
    [deviceMaxGroupSize >= 1] and [batchSize + localWorkSize - 1] below
    [2^64] (each value in the range of its C++ type), the partitioner
    computes [localWorkSize = min(threadsPerBlock, deviceMaxGroupSize)] and
    [globalWorkSize = ceil(batchSize / localWorkSize) * localWorkSize],
    which is [>= batchSize] and an exact multiple of [localWorkSize]. *)
Theorem workPartition_correct (batchSize threadsPerBlock maxWorkGroupSize : Z) :
  size_range batchSize ->
  int_range threadsPerBlock ->
  size_range maxWorkGroupSize ->
  0 < threadsPerBlock ->
  0 < maxWorkGroupSize ->
  batchSize + Z.min threadsPerBlock maxWorkGroupSize - 1 < 2 ^ 64 ->
  well_partitioned batchSize threadsPerBlock maxWorkGroupSize.
Proof.
  unfold size_range, int_range. intros Hb Hti Hmr Ht Hm Hfit.
  set (l := Z.min threadsPerBlock maxWorkGroupSize) in *.
  assert (Hl : 0 < l) by (unfold l; lia).
  assert (Hloc : localWorkSize threadsPerBlock maxWorkGroupSize = l).
  { unfold localWorkSize, l.
    rewrite u64_small by (unfold size_range; lia). reflexivity. }
  pose proof (ceil_div_bounds batchSize l ltac:(lia) Hl) as B.
  exists l, (ceil_div batchSize l * l).
  repeat split; try lia.
  - unfold workPartition, globalWorkSize. rewrite Hloc.
    destruct (Z.eqb_spec l 0) as [E|_]; [lia|].
    do 2 f_equal.
    assert (E1 : u64 (u64 (batchSize + l) - 1) = batchSize + l - 1).
    { unfold u64. rewrite Zminus_mod_idemp_l. apply Z.mod_small. lia. }
    rewrite E1, ceil_div_formula by lia.
    apply u64_small. unfold size_range. lia.
  - exists (ceil_div batchSize l). reflexivity.
Qed.

Lemma workPartition_correct_witness : well_partitioned 1000 256 128.
Proof.
  apply workPartition_correct; unfold size_range, int_range; simpl; lia.
Defined.

(* ================================================================== *)
(** ** The monad: laws *)

Lemma bind_ret_l {A B} (a : A) (f : A -> M B) : bind (ret a) f = f a.
Proof. unfold bind, ret. now destruct (f a). Qed.

Lemma bind_ret_r {A} (m : M A) : bind m ret = m.
Proof.
  destruct m as [[a|v| |x] t]; simpl; trivial. now rewrite app_nil_r.
Qed.

Lemma bind_assoc {A B C} (m : M A) (f : A -> M B) (g : B -> M C) :
  bind (bind m f) g = bind m (fun a => bind (f a) g).
Proof.
  destruct m as [[a|v| |x] t]; simpl; trivial.
  destruct (f a) as [[b|v| |x] t1]; simpl; trivial.
  destruct (g b) as [r t2]. now rewrite app_assoc.
Qed.

Lemma bind_ok {A B} (m : M A) (f : A -> M B) a t :
  m = (Ok a, t) -> bind m f = (fst (f a), t ++ snd (f a)).
Proof. intros ->. simpl. now destruct (f a). Qed.

(* ================================================================== *)
(** ** ResourceLedger: facts *)

Lemma released_app t1 t2 : released (t1 ++ t2) = released t1 ++ released t2.
Proof.
  induction t1 as [|e t1 IH]; simpl; trivial.
  destruct e; simpl; now rewrite ?IH.
Qed.

Lemma release_trace k h :
  release k h = (Ok tt, releases (filter (fun x => negb (is_null (snd x))) [(k, h)])).
Proof. unfold release. simpl. now destruct (is_null h). Qed.

Lemma releases_app l1 l2 : releases (l1 ++ l2) = releases l1 ++ releases l2.
Proof. apply map_app. Qed.

Lemma releaseBuffers_trace buffers n :
  forall i, (i + n <= List.length buffers)%nat ->
  releaseBuffers buffers n i
  = (Ok tt, releases (filter (fun x => negb (is_null (snd x)))
                             (map (pair KMem) (firstn n (skipn i buffers))))).
Proof.
  induction n as [|n IH]; intros i Hlen; simpl.
  - reflexivity.
  - destruct (nth_error buffers i) as [b|] eqn:Hb.
    + assert (Hskip : skipn i buffers = b :: skipn (S i) buffers).
      { clear - Hb. revert i Hb.
        induction buffers as [|x xs IHb]; intros [|i] Hb; simpl in *;
          try discriminate.
        - now injection Hb as ->.
        - now apply IHb. }
      rewrite Hskip. simpl firstn. simpl map.
      rewrite (bind_ok _ _ tt _ (release_trace KMem b)).
      rewrite IH by lia. simpl.
      destruct (is_null b); reflexivity.
    + apply nth_error_None in Hb. lia.
Qed.

Lemma releaseResources_trace context commandQueue program kernel buffers bufferCount :
  bufferCount <= Z.of_nat (List.length buffers) ->
  releaseResources context commandQueue program kernel buffers bufferCount
  = (Ok tt, releases (release_order context commandQueue program kernel
                                    (firstn (Z.to_nat bufferCount) buffers))).
Proof.
  intros Hlen. unfold releaseResources, release_order.
  assert (Hn : (0 + Z.to_nat bufferCount <= List.length buffers)%nat) by lia.
  rewrite (bind_ok _ _ tt _ (releaseBuffers_trace buffers _ 0%nat Hn)).
  rewrite filter_app, releases_app. simpl skipn.
  unfold release. cbn [filter snd].
  destruct (is_null kernel), (is_null program), (is_null commandQueue),
    (is_null context); reflexivity.
Qed.

(** The counterexample to C4: the handles are passed by value and stay
    as they are, so a second call releases every object again. *)
Lemma releaseTwice_releases_again :
  let once := snd (releaseResources 1 2 3 4 [5; 6; 0; 0] 4) in
  let twice := snd (releaseTwice 1 2 3 4 [5; 6; 0; 0] 4) in
  twice <> once /\ ~ NoDup (released twice).
Proof.
  vm_compute. split; [discriminate|].
  intros H. apply NoDup_cons_iff in H. destruct H as [H _].
  apply H. simpl. tauto.
Qed.

(** C4 (amended): [releaseResources] releases each handle only if it is
    non-null, in the fixed order buffers, kernel, program, queue,
    context; with a partially populated resource set it releases exactly
    the non-null first N buffers; it leaves the handles as they are, so a
    second call on the same resource set issues every release of the
    first call again. *)
Theorem releaseResources_order
        (context commandQueue program kernel : handle)
        (buffers : list handle) (bufferCount : Z) :
  bufferCount <= Z.of_nat (List.length buffers) ->
  let objects := release_order context commandQueue program kernel
                               (firstn (Z.to_nat bufferCount) buffers) in
  releaseResources context commandQueue program kernel buffers bufferCount
    = (Ok tt, releases objects) /\
  (forall allocated missing,
      buffers = allocated ++ repeat nullptr missing ->
      bufferCount = Z.of_nat (List.length buffers) ->
      Forall (fun b => b <> nullptr) allocated ->
      objects = map (pair KMem) allocated
                ++ release_order context commandQueue program kernel []) /\
  releaseTwice context commandQueue program kernel buffers bufferCount
    = (Ok tt, releases objects ++ releases objects).
Proof.
  intros Hlen objects.
  pose proof (releaseResources_trace context commandQueue program kernel
                buffers bufferCount Hlen) as E.
  fold objects in E. split; [exact E|]. split.
  - intros allocated missing -> -> Hall. subst objects.
    rewrite Nat2Z.id, firstn_all. unfold release_order.
    rewrite !filter_app, map_app, filter_app, <- app_assoc. f_equal.
    + clear Hlen E. induction Hall as [|b l Hb _ IH]; simpl; trivial.
      unfold is_null at 1. destruct (Z.eqb_spec b nullptr); [contradiction|].
      simpl. now rewrite IH.
    + assert (Hnil : filter (fun x => negb (is_null (snd x)))
                            (map (pair KMem) (repeat nullptr missing)) = []).
      { clear. induction missing; simpl; trivial. }
      rewrite Hnil. reflexivity.
  - unfold releaseTwice. rewrite (bind_ok _ _ tt _ E), E. reflexivity.
Qed.

Lemma releaseResources_order_witness :
  releaseResources 1 2 3 4 [5; 6; 0; 0] 4
  = (Ok tt, [EvRelease KMem 5; EvRelease KMem 6; EvRelease KKernel 4;
             EvRelease KProgram 3; EvRelease KQueue 2; EvRelease KContext 1]).
Proof.
  apply (releaseResources_order 1 2 3 4 [5; 6; 0; 0] 4). simpl. lia.
Defined.

(* ================================================================== *)
(** ** Reasoning about computations: a weakest-precondition calculus *)

(** [wp m Q]: the result and the trace of [m] satisfy [Q]. *)
Definition wp {A} (m : M A) (Q : result A -> trace -> Prop) : Prop :=
  Q (fst m) (snd m).

Lemma wp_intro {A} (m : M A) (Q : result A -> trace -> Prop) :
  wp (bind m ret) Q -> wp m Q.
Proof. now rewrite bind_ret_r. Qed.

Lemma wp_bind_ok {A B} (m : M A) (f : A -> M B) Q a t0 :
  m = (Ok a, t0) ->
  wp (f a) (fun r t => Q r (t0 ++ t)) -> wp (bind m f) Q.
Proof. intros ->. unfold wp. simpl. now destruct (f a). Qed.

Lemma wp_bind_return {A B} (f : A -> M B) Q v :
  Q (Return v) [] -> wp (bind (return_ v) f) Q.
Proof. trivial. Qed.

Lemma wp_bind_exit {A B} (f : A -> M B) Q :
  Q Exit [] -> wp (bind exit_failure f) Q.
Proof. trivial. Qed.

Lemma wp_bind_undefined {A B} (f : A -> M B) Q x :
  Q (Fault x) [] -> wp (bind (undefined x) f) Q.
Proof. trivial. Qed.

Lemma wp_ret {A} (a : A) (Q : result A -> trace -> Prop) :
  Q (Ok a) [] -> wp (ret a) Q.
Proof. trivial. Qed.

(** A test whose value is already known is rewritten, any other test is
    split. *)
Ltac wp_case c :=
  first [ progress change (is_null nullptr) with true
        | match goal with H : c = _ |- _ => rewrite H end
        | destruct c eqn:? ].

Ltac head_of t :=
  lazymatch t with
  | ?f _ => head_of f
  | _ => t
  end.

(** One step of symbolic execution of the program's first statement.
    The loop and the stages built on it are left to their own lemmas. *)
Ltac wp_step :=
  cbv beta;
  lazymatch goal with
  | |- wp (bind (bind _ _) _) _ => rewrite bind_assoc
  | |- wp (bind (ret _) _) _ => rewrite bind_ret_l
  | |- wp (bind (emit _) _) _ => eapply wp_bind_ok; [reflexivity|]; cbn [app]
  | |- wp (bind (invoke _ _) _) _ => eapply wp_bind_ok; [reflexivity|]; cbn [app]
  | |- wp (bind (construct _ _) _) _ => eapply wp_bind_ok; [reflexivity|]; cbn [app]
  | |- wp (bind (return_ _) _) _ => apply wp_bind_return
  | |- wp (bind exit_failure _) _ => apply wp_bind_exit
  | |- wp (bind (undefined _) _) _ => apply wp_bind_undefined
  | |- wp (bind (if true then _ else _) _) _ => cbv iota
  | |- wp (bind (if false then _ else _) _) _ => cbv iota
  | |- wp (bind (if (?x || _) then _ else _) _) _ => wp_case x; cbn [orb]
  | |- wp (bind (if ?c then _ else _) _) _ => wp_case c
  | |- wp (bind (match ?x with _ => _ end) _) _ => destruct x eqn:?; cbn [fst snd]
  | |- wp (bind (let x := _ in _) _) _ => cbv zeta
  | |- wp (bind (releaseBuffers _ _ _) _) _ =>
      change (Z.to_nat 4) with 4%nat; change (Z.to_nat 0) with 0%nat;
      cbn [releaseBuffers nth_error]
  | |- wp (bind (platformLoop _ _ _ _ _ _) _) _ => fail
  | |- wp (bind (selectPlatform _ _) _) _ => fail
  | |- wp (bind (enumerate _ _) _) _ => fail
  | |- wp (bind ?m _) _ => let h := head_of m in unfold h; cbn [nth existsb]
  | |- wp (ret _) _ => apply wp_ret
  end.

Ltac wp_run := repeat wp_step; cbv beta.

(* ================================================================== *)
(** ** DeviceEnumerator: what the enumeration stage can do *)

(** Platform and device queries. *)
Definition is_enumeration (c : call) : bool :=
  match c with
  | GetPlatformIDsCount | GetPlatformIDs _
  | GetPlatformInfoSize _ | GetPlatformInfo _ _
  | GetDeviceIDsCount _ | GetDeviceIDs _ _ => true
  | _ => false
  end.

Definition is_query (c : call) : bool :=
  match c with
  | GetDeviceInfo _ _ => true
  | _ => is_enumeration c
  end.

(** A successful query, or a line on [std::cout]. *)
Definition quiet (e : event) : bool :=
  match e with
  | EvCall c err => is_query c && (err =? CL_SUCCESS)
  | EvCout _ => true
  | _ => false
  end.

(** The three ways the enumeration stage ends: it goes on after
    successful queries only; it leaves the process right after the first
    failing query and its diagnostic; or it returns [-1] right after
    reporting an invalid device index. *)
Definition stage_ok {A} (r : result A) (t : trace) : Prop :=
  match r with
  | Ok _ | Fault _ => forallb quiet t = true
  | Exit =>
      exists pre c line err,
        t = pre ++ [EvCall c err; EvCout (MClError line err)] /\
        is_query c = true /\ err <> CL_SUCCESS /\ forallb quiet pre = true
  | Return v =>
      v = -1 /\
      exists pre, t = pre ++ [EvCerr MInvalidDevice] /\ forallb quiet pre = true
  end.

Lemma stage_bind {A B} (m : M A) (f : A -> M B) :
  wp m stage_ok -> (forall a, wp (f a) stage_ok) -> wp (bind m f) stage_ok.
Proof.
  unfold wp. destruct m as [[a|v| |x] t]; simpl; trivial.
  intros Ht Hf. specialize (Hf a). destruct (f a) as [[b|v| |x] t']; simpl in *.
  - rewrite forallb_app, Ht, Hf. reflexivity.
  - destruct Hf as (-> & pre & -> & Hpre). split; trivial.
    exists (t ++ pre). rewrite forallb_app, Ht, Hpre, app_assoc. auto.
  - destruct Hf as (pre & c & line & err & -> & Hq & Herr & Hpre).
    exists (t ++ pre), c, line, err.
    rewrite forallb_app, Ht, Hpre, app_assoc. auto.
  - rewrite forallb_app, Ht, Hf. reflexivity.
Qed.

Lemma stage_CL_CALL drv line c :
  is_query c = true -> wp (CL_CALL line (invoke drv c)) stage_ok.
Proof.
  intros Hq. unfold wp, CL_CALL, invoke, bind.
  destruct (Z.eqb_spec (status drv c) CL_SUCCESS) as [E|NE]; simpl.
  - rewrite Hq, E. reflexivity.
  - exists [], c, line, (status drv c). auto.
Qed.

Lemma stage_vector_at n written i : wp (vector_at n written i) stage_ok.
Proof. unfold wp, vector_at. now destruct (_ && _). Qed.

(** The stage lemmas of straight-line code follow its structure. *)
Ltac stage_auto :=
  repeat first
    [ apply stage_CL_CALL; reflexivity
    | apply stage_vector_at
    | apply stage_bind; [|intros]
    | reflexivity
    | match goal with
      | |- wp (if ?c then _ else _) _ => destruct c
      end ].

Lemma getPlatform_stage drv id : wp (getPlatform drv id) stage_ok.
Proof. unfold getPlatform. stage_auto. Qed.

Lemma platformLoop_stage drv hint n size written :
  forall i platformIndex,
    wp (platformLoop drv hint (vector_at size written) n i platformIndex) stage_ok.
Proof.
  induction n as [|n IH]; intros i platformIndex; cbn [platformLoop].
  - reflexivity.
  - apply stage_bind; [apply stage_vector_at|]. intros id.
    apply stage_bind; [apply getPlatform_stage|]. intros name.
    apply stage_bind; [reflexivity|]. intros _. apply IH.
Qed.

Lemma selectPlatform_stage drv a : wp (selectPlatform drv a) stage_ok.
Proof.
  unfold selectPlatform.
  apply stage_bind; [now apply stage_CL_CALL|]. intros _.
  apply stage_bind; [now apply stage_CL_CALL|]. intros _.
  apply stage_bind; [reflexivity|]. intros _.
  apply stage_bind; [apply platformLoop_stage|]. intros platformIndex.
  destruct (negb _); apply stage_vector_at.
Qed.

Lemma printDeviceInfo_stage drv dev : wp (printDeviceInfo drv dev) stage_ok.
Proof. unfold printDeviceInfo. stage_auto. Qed.

Lemma selectDevice_stage drv a platformId :
  wp (selectDevice drv a platformId) stage_ok.
Proof.
  unfold selectDevice.
  apply stage_bind; [now apply stage_CL_CALL|]. intros _.
  destruct (_ >=? _).
  - split; [reflexivity|]. now exists [].
  - apply stage_bind; [now apply stage_CL_CALL|]. intros _.
    apply stage_bind; [apply stage_vector_at|]. intros dev.
    apply stage_bind; [|reflexivity].
    destruct (showDeviceInfo a); [apply printDeviceInfo_stage|reflexivity].
Qed.

Lemma enumerate_stage drv a : wp (enumerate drv a) stage_ok.
Proof.
  unfold enumerate. apply stage_bind; [apply selectPlatform_stage|].
  intros platformId. apply selectDevice_stage.
Qed.

(* ================================================================== *)
(** ** The dispatch protocol *)

(** The objects of one launch, with the error codes the creations left
    in [error] and the status of the unchecked device query. *)
Record Launch := {
  l_device : handle;
  l_context : handle;
  l_queue : handle;
  l_source : string;
  l_program : handle;
  l_kernel : handle;
  l_data : handle;
  l_found : handle;
  l_output : handle;
  l_nonce : handle;
  e_context : cl_int;
  e_queue : cl_int;
  e_program : cl_int;
  e_data : cl_int;
  e_found : cl_int;
  e_output : cl_int;
  e_nonce : cl_int;
  e_info : cl_int
}.

(** What a call has done when it reaches [clEnqueueNDRangeKernel]: the
    objects exist, the flag has been cleared by a successful blocking
    write, the nine arguments are bound, and the device limit has been
    queried. *)
Definition launch_trace (L : Launch) (version : Z) (a : Args) : trace :=
  [ EvCreate (CreateContext (l_device L)) (l_context L) (e_context L);
    EvCreate (CreateCommandQueue (200 <=? version) (l_context L) (l_device L))
             (l_queue L) (e_queue L);
    EvOpen "kernel.cl" true;
    EvOpen "utils/keccak.cl" true;
    EvCreate (CreateProgramWithSource (l_context L) (l_source L))
             (l_program L) (e_program L);
    EvCall (BuildProgram (l_program L) (l_device L)
              ("-D CL_TARGET_OPENCL_VERSION=" ++ to_string version)%string)
           CL_SUCCESS;
    EvCreate (CreateKernel (l_program L) "run") (l_kernel L) CL_SUCCESS;
    EvCreate (CreateBuffer (l_context L)
                (Z.lor CL_MEM_READ_ONLY CL_MEM_COPY_HOST_PTR)
                (u64 (dataSize a * sizeof_cl_uchar)))
             (l_data L) (e_data L);
    EvCreate (CreateBuffer (l_context L) CL_MEM_READ_WRITE sizeof_cl_int)
             (l_found L) (e_found L);
    EvCreate (CreateBuffer (l_context L) CL_MEM_WRITE_ONLY (32 * sizeof_cl_uchar))
             (l_output L) (e_output L);
    EvCreate (CreateBuffer (l_context L) CL_MEM_WRITE_ONLY sizeof_cl_ulong)
             (l_nonce L) (e_nonce L);
    EvCall (EnqueueWriteBuffer (l_queue L) (l_found L) CL_TRUE sizeof_cl_int 0)
           CL_SUCCESS;
    EvCall (SetKernelArg (l_kernel L) 0 sizeof_cl_int (ArgInt (dataSize a)))
           CL_SUCCESS;
    EvCall (SetKernelArg (l_kernel L) 1 sizeof_cl_ulong (ArgULong (startNonce a)))
           CL_SUCCESS;
    EvCall (SetKernelArg (l_kernel L) 2 sizeof_cl_int (ArgInt (nonceOffset a)))
           CL_SUCCESS;
    EvCall (SetKernelArg (l_kernel L) 3 sizeof_cl_ulong (ArgULong (batchSize a)))
           CL_SUCCESS;
    EvCall (SetKernelArg (l_kernel L) 4 sizeof_cl_int (ArgInt (difficulty a)))
           CL_SUCCESS;
    EvCall (SetKernelArg (l_kernel L) 5 sizeof_cl_mem (ArgMem (l_data L)))
           CL_SUCCESS;
    EvCall (SetKernelArg (l_kernel L) 6 sizeof_cl_mem (ArgMem (l_found L)))
           CL_SUCCESS;
    EvCall (SetKernelArg (l_kernel L) 7 sizeof_cl_mem (ArgMem (l_output L)))
           CL_SUCCESS;
    EvCall (SetKernelArg (l_kernel L) 8 sizeof_cl_mem (ArgMem (l_nonce L)))
           CL_SUCCESS;
    EvCall (GetDeviceInfo (l_device L) DEVICE_MAX_WORK_GROUP_SIZE) (e_info L) ].

(** The kernel launch of [L] with status [err]. *)
Definition enqueue_event (L : Launch) (a : Args) (maxWorkGroupSize : Z)
           (err : cl_int) : event :=
  EvCall (EnqueueNDRangeKernel (l_queue L) (l_kernel L)
            (match workPartition (batchSize a) (threadsPerBlock a) maxWorkGroupSize with
             | Some (_, g) => g
             | None => 0
             end)
            (localWorkSize (threadsPerBlock a) maxWorkGroupSize))
         err.

(** The launch succeeded, the host waited for the device, and the flag
    was read back. *)
Definition completed_trace (L : Launch) (version : Z) (a : Args)
           (maxWorkGroupSize : Z) (e_finish : cl_int) : trace :=
  launch_trace L version a
  ++ [ enqueue_event L a maxWorkGroupSize CL_SUCCESS;
       EvCall (Finish (l_queue L)) e_finish;
       EvCall (EnqueueReadBuffer (l_queue L) (l_found L) CL_TRUE sizeof_cl_int)
              CL_SUCCESS ].

Definition is_enqueue (e : event) : bool :=
  match e with
  | EvCall (EnqueueNDRangeKernel _ _ _ _) _ => true
  | _ => false
  end.

Definition is_store (e : event) : bool :=
  match e with
  | EvStoreOutput _ | EvStoreValidNonce _ => true
  | _ => false
  end.

Definition is_cerr (e : event) : bool :=
  match e with
  | EvCerr _ => true
  | _ => false
  end.

Definition is_creation (e : event) : bool :=
  match e with
  | EvCreate _ _ _ => true
  | _ => false
  end.

Definition is_enumeration_event (e : event) : bool :=
  match e with
  | EvCall c _ => is_enumeration c
  | _ => false
  end.

Lemma negb_eqb_false x y : negb (x =? y) = false -> x = y.
Proof. intros H. apply negb_false_iff in H. now apply Z.eqb_eq. Qed.

Lemma negb_eqb_true x y : negb (x =? y) = true -> x <> y.
Proof. intros H. apply negb_true_iff in H. now apply Z.eqb_neq. Qed.

(** The status codes a path has tested, as equations. *)
Ltac status_facts :=
  repeat match goal with
         | H : negb (_ =? _) = false |- _ => apply negb_eqb_false in H
         | H : negb (_ =? _) = true |- _ => apply negb_eqb_true in H
         | H : Z.lor _ _ = CL_SUCCESS |- _ =>
             apply lor_success in H; destruct H
         | H : (_ =? _) = true |- _ => apply Z.eqb_eq in H
         | H : (_ =? _) = false |- _ => apply Z.eqb_neq in H
         end;
  repeat match goal with
         | H : status _ _ = CL_SUCCESS |- _ => rewrite !H; clear H
         | H : ?c = CL_SUCCESS |- _ => is_var c; subst c
         end.

(** A launch is assembled from the objects of the path. *)
Ltac new_launch :=
  refine (ex_intro _ (Build_Launch _ _ _ _ _ _ _ _ _ _ _ _ _ _ _ _ _ _) _).

Lemma workPartition_local batchSize threadsPerBlock maxWorkGroupSize l g :
  workPartition batchSize threadsPerBlock maxWorkGroupSize = Some (l, g) ->
  l = localWorkSize threadsPerBlock maxWorkGroupSize.
Proof.
  unfold workPartition. destruct (globalWorkSize _ _); [|discriminate].
  now intros [= <- _].
Qed.

(** Once the device is known, a kernel is enqueued at most once, and
    only at the end of the launch protocol. *)
Lemma runOnDevice_enqueue drv ver a dev :
  wp (runOnDevice drv ver a dev)
     (fun r t =>
        existsb is_enqueue t = true ->
        exists L err post,
          l_device L = dev /\
          t = launch_trace L ver a
              ++ enqueue_event L a (u64 (maxWorkGroupSize_out drv dev)) err :: post /\
          existsb is_enqueue post = false).
Proof.
  apply wp_intro. wp_run.
  all: cbn [existsb is_enqueue orb]; intros Hreach; try discriminate Hreach.
  all: status_facts.
  all: match goal with
       | H : workPartition _ _ _ = Some _ |- _ =>
           pose proof (workPartition_local _ _ _ _ _ H)
       end; subst.
  all: new_launch; do 2 eexists; unfold enqueue_event, launch_trace;
       cbn [l_device l_context l_queue l_source l_program l_kernel l_data
            l_found l_output l_nonce e_context e_queue e_program e_data
            e_found e_output e_nonce e_info app].
  all: match goal with
       | H : workPartition _ _ _ = Some _ |- _ => rewrite H
       end.
  all: split; [reflexivity|]; split; [reflexivity|]; reflexivity.
Qed.

Definition is_finish (e : event) : bool :=
  match e with
  | EvCall (Finish _) _ => true
  | _ => false
  end.

(** The stores a trace makes into the caller's storage when the flag
    reads back as [found]. *)
Definition stores_for (drv : Driver) (found : Z) : trace :=
  if found =? 1
  then [EvStoreOutput (digest_out drv); EvStoreValidNonce (u64 (nonce_out drv))]
  else [].

Ltac unfold_launch :=
  unfold completed_trace, enqueue_event, launch_trace;
  cbn [l_device l_context l_queue l_source l_program l_kernel l_data
       l_found l_output l_nonce e_context e_queue e_program e_data
       e_found e_output e_nonce e_info app].

Ltac use_partition :=
  match goal with
  | H : workPartition _ _ _ = Some _ |- _ =>
      pose proof (workPartition_local _ _ _ _ _ H); subst; rewrite H
  end.

(** Once the device is known, no platform or device is enumerated. *)
Lemma runOnDevice_no_enumeration drv ver a dev :
  wp (runOnDevice drv ver a dev)
     (fun r t => existsb is_enumeration_event t = false).
Proof. apply wp_intro. wp_run. all: reflexivity. Qed.

(** The caller's storage is written only after the launch completed and
    the flag read back as 1. *)
Lemma runOnDevice_store drv ver a dev :
  wp (runOnDevice drv ver a dev)
     (fun r t =>
        existsb is_store t = true ->
        i32 (found_out drv) = 1 /\
        exists L e post,
          l_device L = dev /\
          t = completed_trace L ver a (u64 (maxWorkGroupSize_out drv dev)) e ++ post).
Proof.
  apply wp_intro. wp_run.
  all: cbn [existsb is_store orb]; intros Hstore; try discriminate Hstore.
  all: status_facts; split; [assumption|].
  all: new_launch; do 2 eexists; unfold_launch; use_partition.
  all: split; reflexivity.
Qed.

(** A call that returns either reports an error and returns [-1] before
    any wait for the device, or completes the launch and returns the
    flag as read back. *)
Lemma runOnDevice_return drv ver a dev :
  wp (runOnDevice drv ver a dev)
     (fun r t =>
        forall v, outcome_of r = Returned v ->
        (v = -1 /\ existsb is_cerr t = true /\ existsb is_finish t = false /\
         filter is_store t = [])
        \/
        (v = i32 (found_out drv) /\ existsb is_cerr t = false /\
         filter is_store t = stores_for drv v /\
         exists L e post,
           l_device L = dev /\
           t = completed_trace L ver a (u64 (maxWorkGroupSize_out drv dev)) e
               ++ post)).
Proof.
  apply wp_intro. wp_run.
  all: cbn [outcome_of]; intros v Hv; try discriminate Hv; injection Hv as <-.
  all: try (left; repeat split; reflexivity).
  all: right; unfold stores_for;
       match goal with H : (i32 _ =? 1) = _ |- _ => rewrite H end.
  all: status_facts; repeat (split; [reflexivity|]).
  all: new_launch; do 2 eexists; unfold_launch; use_partition.
  all: split; reflexivity.
Qed.

(* ================================================================== *)
(** ** Traces: general facts *)

(** Every event of the enumeration stage is a query, a line of
    diagnostics, or the report of an invalid device index. *)
Definition enum_event (e : event) : bool :=
  match e with
  | EvCall c _ => is_query c
  | EvCout _ => true
  | EvCerr MInvalidDevice => true
  | _ => false
  end.

Lemma quiet_enum_event e : quiet e = true -> enum_event e = true.
Proof.
  destruct e; simpl; try discriminate; trivial.
  now intros [H _]%andb_prop.
Qed.

Lemma existsb_none (p q : event -> bool) t :
  (forall e, q e = true -> p e = false) ->
  forallb q t = true -> existsb p t = false.
Proof.
  intros Hpq. induction t as [|e t IH]; simpl; trivial.
  intros [He Ht]%andb_prop. now rewrite (Hpq e He), IH.
Qed.

Lemma stage_events {A} (r : result A) t :
  stage_ok r t -> forallb enum_event t = true.
Proof.
  assert (Hq : forall l, forallb quiet l = true -> forallb enum_event l = true).
  { induction l as [|e l IH]; simpl; trivial.
    intros [He Hl]%andb_prop. now rewrite (quiet_enum_event e He), IH. }
  destruct r; simpl; auto.
  - intros (_ & pre & -> & Hpre). rewrite forallb_app, Hq by assumption.
    reflexivity.
  - intros (pre & c & line & err & -> & Hc & _ & Hpre).
    rewrite forallb_app, Hq by assumption. simpl. now rewrite Hc.
Qed.

Lemma enum_event_not_store e : enum_event e = true -> is_store e = false.
Proof. now destruct e. Qed.

Lemma enum_event_not_creation e : enum_event e = true -> is_creation e = false.
Proof. now destruct e. Qed.

Lemma enum_event_not_enqueue e : enum_event e = true -> is_enqueue e = false.
Proof. destruct e as [c| | | | | | |]; trivial. now destruct c. Qed.

Lemma enum_event_not_finish e : enum_event e = true -> is_finish e = false.
Proof. destruct e as [c| | | | | | |]; trivial. now destruct c. Qed.

Lemma quiet_not_cerr e : quiet e = true -> is_cerr e = false.
Proof. now destruct e. Qed.

Lemma existsb_filter_nil (p : event -> bool) t :
  existsb p t = false -> filter p t = [].
Proof.
  induction t as [|e t IH]; simpl; trivial.
  destruct (p e); simpl; [discriminate|assumption].
Qed.

Lemma filter_nil_existsb (p : event -> bool) t :
  filter p t = [] -> existsb p t = false.
Proof.
  induction t as [|e t IH]; simpl; trivial.
  destruct (p e); simpl; [discriminate|assumption].
Qed.

(** Only the stores of a trace act on the caller's storage. *)
Lemma host_after_stores t : forall h,
  host_after t h = host_after (filter is_store t) h.
Proof.
  unfold host_after. induction t as [|e t IH]; intros h; simpl; trivial.
  destruct e; simpl; try apply IH; try destruct h; apply IH.
Qed.

Lemma host_after_no_store t h : existsb is_store t = false -> host_after t h = h.
Proof.
  intros H. rewrite host_after_stores, (existsb_filter_nil _ _ H). reflexivity.
Qed.


(* ================================================================== *)
(** ** DispatchEngine: the result of a call *)

(** The launch of [t] completed: the kernel was enqueued successfully,
    the host waited for the device and read the flag back. *)
Definition completed (drv : Driver) (version : Z) (a : Args) (t : trace) : Prop :=
  exists pre L e post,
    t = pre
        ++ completed_trace L version a
             (u64 (maxWorkGroupSize_out drv (l_device L))) e
        ++ post /\
    existsb is_store (pre ++ completed_trace L version a
             (u64 (maxWorkGroupSize_out drv (l_device L))) e) = false.

Lemma stage_no_store {A} (r : result A) t :
  stage_ok r t -> existsb is_store t = false.
Proof.
  intros H. apply (existsb_none _ enum_event).
  - apply enum_event_not_store.
  - now apply stage_events in H.
Qed.

Lemma stage_no_finish {A} (r : result A) t :
  stage_ok r t -> existsb is_finish t = false.
Proof.
  intros H. apply (existsb_none _ enum_event).
  - apply enum_event_not_finish.
  - now apply stage_events in H.
Qed.

Lemma stage_no_enqueue {A} (r : result A) t :
  stage_ok r t -> existsb is_enqueue t = false.
Proof.
  intros H. apply (existsb_none _ enum_event).
  - apply enum_event_not_enqueue.
  - now apply stage_events in H.
Qed.

Lemma stage_no_creation {A} (r : result A) t :
  stage_ok r t -> existsb is_creation t = false.
Proof.
  intros H. apply (existsb_none _ enum_event).
  - apply enum_event_not_creation.
  - now apply stage_events in H.
Qed.

Lemma quiet_no_cerr t : forallb quiet t = true -> existsb is_cerr t = false.
Proof. apply existsb_none, quiet_not_cerr. Qed.

(** The whole call, seen from its two stages. *)
Lemma executeKernel_stages drv ver a r t :
  executeKernel drv ver a = (r, t) ->
  (exists dev t0 t1,
      enumerate drv a = (Ok dev, t0) /\ forallb quiet t0 = true /\
      runOnDevice drv ver a dev = (r, t1) /\ t = t0 ++ t1)
  \/ (stage_ok r t /\ (forall v, r <> Ok v) /\
      existsb is_finish t = false /\ existsb is_store t = false /\
      existsb is_enqueue t = false /\ existsb is_creation t = false).
Proof.
  unfold executeKernel. pose proof (enumerate_stage drv a) as Hs.
  unfold wp in Hs. destruct (enumerate drv a) as [[dev|v| |f] t0];
    cbn [bind fst snd] in *.
  2-4: intros [= <- <-]; right; split; [exact Hs|].
  2-4: split; [discriminate|].
  2-4: split; [exact (stage_no_finish _ _ Hs)|].
  2-4: split; [exact (stage_no_store _ _ Hs)|].
  2-4: split; [exact (stage_no_enqueue _ _ Hs)|exact (stage_no_creation _ _ Hs)].
  destruct (runOnDevice drv ver a dev) as [r1 t1] eqn:Hrun.
  intros [= <- <-]. left. now exists dev, t0, t1.
Qed.

(** A call that returns went one of two ways. *)
Lemma executeKernel_returned drv ver a r t v :
  executeKernel drv ver a = (r, t) ->
  outcome_of r = Returned v ->
  (v = -1 /\ existsb is_cerr t = true /\ existsb is_finish t = false /\
   existsb is_store t = false)
  \/
  (v = i32 (found_out drv) /\ existsb is_cerr t = false /\
   completed drv ver a t /\ filter is_store t = stores_for drv v).
Proof.
  intros E Hv.
  destruct (executeKernel_stages _ _ _ _ _ E)
    as [(dev & t0 & t1 & He & Hq & Hrun & ->) | (Hs & Hnok & Hf & Hst & _)].
  - pose proof (runOnDevice_return drv ver a dev) as Hr. unfold wp in Hr.
    rewrite Hrun in Hr. cbn [fst snd] in Hr.
    pose proof (stage_no_finish (Ok dev) t0 Hq) as Hf0.
    pose proof (stage_no_store (Ok dev) t0 Hq) as Hs0.
    destruct (Hr v Hv) as [(-> & Hc & Hf & Hs) |
                           (-> & Hc & Hs & L & e & post & HL & Ht1)].
    + left. rewrite !existsb_app, Hc, Hf0, Hf, Hs0, orb_true_r.
      repeat split; trivial. now apply filter_nil_existsb.
    + right. rewrite (existsb_app _ t0), (quiet_no_cerr _ Hq), Hc.
      repeat split; trivial.
      * exists t0, L, e, post. rewrite HL, Ht1. split; [reflexivity|].
        rewrite existsb_app, Hs0. reflexivity.
      * rewrite filter_app, Hs, (existsb_filter_nil _ _ Hs0). reflexivity.
  - left. destruct r as [x|x| |x]; try discriminate Hv.
    + now destruct (Hnok x).
    + injection Hv as <-. destruct Hs as (-> & pre & -> & Hpre).
      split; [reflexivity|]. split; [|split]; trivial.
      rewrite existsb_app. cbn. apply orb_true_r.
Qed.





(** C5: the caller's output digest buffer and [validNonce] storage are
    written only when the found flag reads back as exactly 1 after device
    completion; on every call that returns [-1] or [0], both remain
    unchanged. *)
Theorem outputs_written_only_when_found drv ver a h o t h' :
  run_executeKernel drv ver a h = (o, t, h') ->
  (existsb is_store t = true ->
   i32 (found_out drv) = 1 /\ completed drv ver a t)
  /\ (h' <> h -> existsb is_store t = true)
  /\ (o = Returned (-1) \/ o = Returned 0 ->
      existsb is_store t = false /\ h' = h).
Proof.
  unfold run_executeKernel.
  destruct (executeKernel drv ver a) as [r t'] eqn:E.
  intros [= <- <- <-]. split; [|split].
  - intros Hst.
    destruct (executeKernel_stages _ _ _ _ _ E)
      as [(dev & t0 & t1 & He & Hq & Hrun & ->) | (_ & _ & _ & Hno & _)].
    + pose proof (stage_no_store (Ok dev) t0 Hq) as Hs0.
      rewrite existsb_app, Hs0 in Hst. cbn [orb] in Hst.
      pose proof (runOnDevice_store drv ver a dev) as Hr. unfold wp in Hr.
      rewrite Hrun in Hr. cbn [fst snd] in Hr.
      destruct (Hr Hst) as (Hone & L & e & post & HL & ->).
      split; [exact Hone|]. exists t0, L, e, post. rewrite HL.
      split; [reflexivity|]. rewrite existsb_app, Hs0. reflexivity.
    + congruence.
  - intros Hchanged. destruct (existsb is_store t') eqn:Hst; trivial.
    exfalso. apply Hchanged. now apply host_after_no_store.
  - intros Hret.
    assert (Hv : exists v, outcome_of r = Returned v /\ (v = -1 \/ v = 0)).
    { destruct Hret as [-> | ->]; eexists; split; eauto. }
    destruct Hv as (v & Hv & Hcases).
    assert (Hno : existsb is_store t' = false).
    { destruct (executeKernel_returned _ _ _ _ _ _ E Hv)
        as [(_ & _ & _ & Hs) | (Hflag & _ & _ & Hs)]; trivial.
      apply filter_nil_existsb. rewrite Hs. unfold stores_for.
      destruct (Z.eqb_spec v 1); [lia|reflexivity]. }
    split; [exact Hno|]. now apply host_after_no_store.
Qed.

Lemma outputs_written_only_when_found_witness :
  (existsb is_store
     (snd (fst (run_executeKernel (good_driver 0) 300 (sample_args 0)
                                  sample_host))) = false
   /\ snd (run_executeKernel (good_driver 0) 300 (sample_args 0) sample_host)
      = sample_host)
  /\ i32 (found_out (good_driver 1)) = 1.
Proof.
  split.
  - eapply (outputs_written_only_when_found (good_driver 0) 300 (sample_args 0)
              sample_host (Returned 0)).
    + vm_compute. reflexivity.
    + right. reflexivity.
  - eapply (proj1 (outputs_written_only_when_found (good_driver 1) 300
                     (sample_args 0) sample_host _ _ _ eq_refl)).
    vm_compute. reflexivity.
Defined.

(** C8: on every execution path that reaches the kernel enqueue, a
    blocking write of the scalar 0 into the FoundFlag buffer (the buffer
    created read-write with the size of a [cl_int] and bound as argument
    6) has completed successfully before the kernel is enqueued. *)
Theorem flag_cleared_before_enqueue drv ver a r t :
  executeKernel drv ver a = (r, t) ->
  existsb is_enqueue t = true ->
  exists pre mid post ctx q fb k e g l err,
    t = pre
        ++ EvCall (EnqueueWriteBuffer q fb CL_TRUE sizeof_cl_int 0) CL_SUCCESS
        :: mid
        ++ EvCall (EnqueueNDRangeKernel q k g l) err
        :: post /\
    In (EvCreate (CreateBuffer ctx CL_MEM_READ_WRITE sizeof_cl_int) fb e) pre /\
    In (EvCall (SetKernelArg k 6 sizeof_cl_mem (ArgMem fb)) CL_SUCCESS) mid /\
    existsb is_enqueue (pre ++ mid) = false /\
    existsb is_enqueue post = false.
Proof.
  intros E Hreach.
  destruct (executeKernel_stages _ _ _ _ _ E)
    as [(dev & t0 & t1 & He & Hq & Hrun & ->) | (_ & _ & _ & _ & Hno & _)];
    [|congruence].
  pose proof (stage_no_enqueue (Ok dev) t0 Hq) as Hn0.
  rewrite existsb_app, Hn0 in Hreach. cbn [orb] in Hreach.
  pose proof (runOnDevice_enqueue drv ver a dev) as Hr. unfold wp in Hr.
  rewrite Hrun in Hr. cbn [fst snd] in Hr.
  destruct (Hr Hreach) as (L & err & post & HL & -> & Hpost).
  exists (t0 ++ firstn 11 (launch_trace L ver a)),
    (skipn 12 (launch_trace L ver a)), post,
    (l_context L), (l_queue L), (l_found L), (l_kernel L), (e_found L).
  unfold enqueue_event. do 3 eexists. split; [|split; [|split; [|split]]].
  - rewrite <- app_assoc. reflexivity.
  - apply in_or_app. right. cbn. tauto.
  - cbn. tauto.
  - rewrite !existsb_app, Hn0. reflexivity.
  - exact Hpost.
Qed.

Lemma flag_cleared_before_enqueue_witness :
  exists pre mid post ctx q fb k e g l err,
    snd (executeKernel (good_driver 0) 300 (sample_args 0))
    = pre
        ++ EvCall (EnqueueWriteBuffer q fb CL_TRUE sizeof_cl_int 0) CL_SUCCESS
        :: mid
        ++ EvCall (EnqueueNDRangeKernel q k g l) err
        :: post /\
    In (EvCreate (CreateBuffer ctx CL_MEM_READ_WRITE sizeof_cl_int) fb e) pre /\
    In (EvCall (SetKernelArg k 6 sizeof_cl_mem (ArgMem fb)) CL_SUCCESS) mid /\
    existsb is_enqueue (pre ++ mid) = false /\
    existsb is_enqueue post = false.
Proof.
  eapply (flag_cleared_before_enqueue (good_driver 0) 300 (sample_args 0)).
  - apply surjective_pairing.
  - vm_compute. reflexivity.
Defined.


(* ================================================================== *)
(** ** Error policy of the setup stages *)

Lemma quiet_call_success t c err :
  forallb quiet t = true -> In (EvCall c err) t -> err = CL_SUCCESS.
Proof.
  intros Hq Hin. rewrite forallb_forall in Hq. specialize (Hq _ Hin).
  cbn in Hq. apply andb_prop in Hq. now apply Z.eqb_eq.
Qed.

Lemma existsb_false_In (p : event -> bool) t e :
  existsb p t = false -> In e t -> p e = false.
Proof.
  intros Hex Hin. destruct (p e) eqn:Hp; trivial.
  assert (existsb p t = true) by (apply existsb_exists; eauto). congruence.
Qed.

(** A driver on which context creation fails. *)
Definition no_context (c : creation) : handle * cl_int :=
  match c with
  | CreateContext _ => (nullptr, -6)
  | _ => sample_create c
  end.

(** A driver on which queue creation fails. *)
Definition no_queue (c : creation) : handle * cl_int :=
  match c with
  | CreateCommandQueue _ _ _ => (nullptr, -6)
  | _ => sample_create c
  end.

(** A driver that reports no platform at the first query. *)
Definition no_platform (c : call) : cl_int :=
  match c with
  | GetPlatformIDsCount => -1001
  | _ => CL_SUCCESS
  end.

(** The counterexample to C2: a failing context creation is reported to
    the caller with [-1]; the process is not terminated. *)
Lemma context_failure_returns :
  exists t,
    run_executeKernel
      (sample_driver all_succeed no_context 1 1 (Some "kernel"%string) 0)
      300 (sample_args 0) sample_host
    = (Returned (-1), t, sample_host) /\
    In (EvCreate (CreateContext 200) nullptr (-6)) t /\
    Returned (-1) <> Exited.
Proof.
  eexists. split; [vm_compute; reflexivity|]. split; [|discriminate].
  cbn. tauto.
Qed.

(** C2 (amended): every failure of a driver call of the platform and
    device enumeration terminates the process with a diagnostic instead
    of returning an error code to the caller; a failure of context
    creation or of queue creation returns [-1] to the caller after an
    error message, as build, allocation and dispatch failures do, and the
    queue failure releases the context first. *)
Theorem setup_failure_policy drv ver a r t :
  executeKernel drv ver a = (r, t) ->
  (forall c err,
      In (EvCall c err) t -> is_enumeration c = true -> err <> CL_SUCCESS ->
      r = Exit /\
      exists pre line, t = pre ++ [EvCall c err; EvCout (MClError line err)])
  /\
  (forall dev t0 err,
      enumerate drv a = (Ok dev, t0) ->
      create drv (CreateContext dev) = (nullptr, err) ->
      r = Return (-1) /\
      t = t0 ++ [EvCreate (CreateContext dev) nullptr err; EvCerr (MError err)])
  /\
  (forall dev t0 ctx e err,
      enumerate drv a = (Ok dev, t0) ->
      create drv (CreateContext dev) = (ctx, e) ->
      ctx <> nullptr ->
      create drv (CreateCommandQueue (200 <=? ver) ctx dev) = (nullptr, err) ->
      r = Return (-1) /\
      t = t0 ++ [EvCreate (CreateContext dev) ctx e;
                 EvCreate (CreateCommandQueue (200 <=? ver) ctx dev) nullptr err;
                 EvCerr (MError err);
                 EvRelease KContext ctx]).
Proof.
  intros E. split; [|split].
  - intros c err Hin Hc Herr.
    destruct (executeKernel_stages _ _ _ _ _ E)
      as [(dev & t0 & t1 & He & Hq & Hrun & ->) | (Hs & Hnok & _)].
    + exfalso. apply in_app_or in Hin. destruct Hin as [Hin|Hin].
      * apply Herr. eapply quiet_call_success; eauto.
      * pose proof (runOnDevice_no_enumeration drv ver a dev) as Hn.
        unfold wp in Hn. rewrite Hrun in Hn. cbn [snd] in Hn.
        apply (existsb_false_In _ _ _ Hn) in Hin. cbn in Hin. congruence.
    + destruct r as [x|x| |x]; cbn in Hs.
      * now destruct (Hnok x).
      * exfalso. destruct Hs as (_ & pre & -> & Hpre).
        apply in_app_or in Hin. destruct Hin as [Hin|[Hin|[]]];
          [|discriminate].
        apply Herr. eapply quiet_call_success; eauto.
      * destruct Hs as (pre & c' & line & err' & -> & _ & _ & Hpre).
        split; [reflexivity|].
        apply in_app_or in Hin. destruct Hin as [Hin|[Hin|[Hin|[]]]].
        -- exfalso. apply Herr. eapply quiet_call_success; eauto.
        -- injection Hin as <- <-. now exists pre, line.
        -- discriminate.
      * exfalso. apply Herr. eapply quiet_call_success; eauto.
  - intros dev t0 err He Hctx. revert E.
    unfold executeKernel. rewrite He. cbn [bind].
    unfold runOnDevice, createQueue, construct. rewrite Hctx. cbn.
    now intros [= <- <-].
  - intros dev t0 ctx e err He Hctx Hnn Hq. revert E.
    unfold executeKernel. rewrite He. cbn [bind].
    unfold runOnDevice, createQueue, construct. rewrite Hctx. cbn.
    unfold is_null at 1. destruct (Z.eqb_spec ctx nullptr) as [|_]; [easy|].
    rewrite Hq. cbn. unfold release, is_null.
    destruct (Z.eqb_spec ctx nullptr) as [|_]; [easy|]. cbn.
    now intros [= <- <-].
Qed.

Lemma setup_failure_policy_witness :
  fst (executeKernel (sample_driver no_platform sample_create 1 1 None 0)
                     300 (sample_args 0)) = Exit /\
  fst (executeKernel (sample_driver all_succeed no_context 1 1 None 0)
                     300 (sample_args 0)) = Return (-1) /\
  fst (executeKernel (sample_driver all_succeed no_queue 1 1 None 0)
                     300 (sample_args 0)) = Return (-1).
Proof.
  split; [|split].
  - eapply (proj1 (setup_failure_policy
                     (sample_driver no_platform sample_create 1 1 None 0)
                     300 (sample_args 0) _ _ (surjective_pairing _))
                  GetPlatformIDsCount (-1001)).
    + vm_compute. tauto.
    + reflexivity.
    + discriminate.
  - eapply (proj1 (proj2 (setup_failure_policy
                     (sample_driver all_succeed no_context 1 1 None 0)
                     300 (sample_args 0) _ _ (surjective_pairing _)))
                  200 _ (-6)).
    + vm_compute. reflexivity.
    + reflexivity.
  - eapply (proj2 (proj2 (setup_failure_policy
                     (sample_driver all_succeed no_queue 1 1 None 0)
                     300 (sample_args 0) _ _ (surjective_pairing _)))
                  200 _ 1000 0 (-6)).
    + vm_compute. reflexivity.
    + reflexivity.
    + discriminate.
    + reflexivity.
Defined.

(* ================================================================== *)
(** ** Device index validation *)

(** The check of line 75 rejects the index: the call returns [-1] right
    after the device count query. *)
Lemma executeKernel_rejects_device drv ver a platformId t0 :
  selectPlatform drv a = (Ok platformId, t0) ->
  status drv (GetDeviceIDsCount platformId) = CL_SUCCESS ->
  u32 (numDevices_out drv platformId) <= u32 (deviceId a) ->
  executeKernel drv ver a
  = (Return (-1),
     t0 ++ [EvCall (GetDeviceIDsCount platformId) CL_SUCCESS;
            EvCerr MInvalidDevice]).
Proof.
  intros Hsel Hst Hge.
  unfold executeKernel, enumerate. rewrite Hsel. cbn [bind].
  unfold selectDevice, CL_CALL, invoke. rewrite Hst. cbn.
  destruct (Z.geb_spec (u32 (deviceId a)) (u32 (numDevices_out drv platformId)));
    [reflexivity|lia].
Qed.

Lemma rejected_run drv ver a h platformId t0 :
  selectPlatform drv a = (Ok platformId, t0) ->
  status drv (GetDeviceIDsCount platformId) = CL_SUCCESS ->
  u32 (numDevices_out drv platformId) <= u32 (deviceId a) ->
  let t := t0 ++ [EvCall (GetDeviceIDsCount platformId) CL_SUCCESS;
                  EvCerr MInvalidDevice] in
  run_executeKernel drv ver a h = (Returned (-1), t, h) /\
  existsb is_creation t = false.
Proof.
  intros Hsel Hst Hge t.
  pose proof (selectPlatform_stage drv a) as Hs. unfold wp in Hs.
  rewrite Hsel in Hs. cbn [fst snd] in Hs.
  assert (Hc : existsb is_creation t = false).
  { unfold t. rewrite existsb_app, (stage_no_creation (Ok platformId) t0 Hs).
    reflexivity. }
  assert (Hstore : existsb is_store t = false).
  { unfold t. rewrite existsb_app, (stage_no_store (Ok platformId) t0 Hs).
    reflexivity. }
  split; [|exact Hc]. unfold run_executeKernel.
  rewrite (executeKernel_rejects_device drv ver a _ _ Hsel Hst Hge).
  cbn [outcome_of]. fold t. now rewrite host_after_no_store.
Qed.

(** C6: for every device index greater than or equal to the enumerated
    GPU device count, [executeKernel] returns [-1] immediately, and no
    context, queue, program, kernel or buffer is created before that
    return. *)
Theorem invalid_device_rejected drv ver a h platformId t0 :
  selectPlatform drv a = (Ok platformId, t0) ->
  status drv (GetDeviceIDsCount platformId) = CL_SUCCESS ->
  int_range (deviceId a) ->
  u32 (numDevices_out drv platformId) <= deviceId a ->
  let t := t0 ++ [EvCall (GetDeviceIDsCount platformId) CL_SUCCESS;
                  EvCerr MInvalidDevice] in
  run_executeKernel drv ver a h = (Returned (-1), t, h) /\
  existsb is_creation t = false.
Proof.
  intros Hsel Hst Hint Hge. apply rejected_run; trivial.
  pose proof (u32_range (numDevices_out drv platformId)) as Hn.
  unfold int_range, uint_range in *.
  rewrite (u32_small (deviceId a)); [lia|]. unfold uint_range. lia.
Qed.

Lemma invalid_device_rejected_witness :
  run_executeKernel (good_driver 0) 300 (sample_args 1) sample_host
  = (Returned (-1),
     [EvCall GetPlatformIDsCount 0; EvCall (GetPlatformIDs 1) 0;
      EvCout MPlatformsHeader; EvCall (GetPlatformInfoSize 100) 0;
      EvCall (GetPlatformInfo 100 12) 0;
      EvCout (MPlatformLine false "Portable CL");
      EvCall (GetDeviceIDsCount 100) 0; EvCerr MInvalidDevice],
     sample_host).
Proof.
  apply (invalid_device_rejected (good_driver 0) 300 (sample_args 1)
           sample_host 100 _ eq_refl eq_refl).
  - unfold int_range. simpl. lia.
  - vm_compute. discriminate.
Defined.

(** The counterexample to C9: with more than [2^31] enumerated devices
    a negative index passes the check of line 75; the call goes on to the
    second device query and indexes the device list out of bounds. *)
Lemma negative_device_passes_check :
  exists t,
    run_executeKernel
      (sample_driver all_succeed sample_create 1 4294967295 None 0)
      300 (sample_args (-2)) sample_host
    = (Undefined OutOfBounds, t, sample_host) /\
    In (EvCall (GetDeviceIDs 100 4294967295) CL_SUCCESS) t /\
    Undefined OutOfBounds <> Returned (-1).
Proof.
  eexists. split; [vm_compute; reflexivity|]. split; [|discriminate].
  cbn. tauto.
Qed.

(** C9 (amended): for every negative device index, provided the
    enumerated device count is at most [2^31], [executeKernel] returns
    [-1] with no device resources allocated: the signed index is
    converted to unsigned in the comparison against the unsigned device
    count, so the negative value is rejected by the same check that
    rejects out-of-range positive indices. *)
Theorem negative_device_rejected drv ver a h platformId t0 :
  selectPlatform drv a = (Ok platformId, t0) ->
  status drv (GetDeviceIDsCount platformId) = CL_SUCCESS ->
  int_range (deviceId a) ->
  deviceId a < 0 ->
  u32 (numDevices_out drv platformId) <= 2 ^ 31 ->
  let t := t0 ++ [EvCall (GetDeviceIDsCount platformId) CL_SUCCESS;
                  EvCerr MInvalidDevice] in
  run_executeKernel drv ver a h = (Returned (-1), t, h) /\
  existsb is_creation t = false.
Proof.
  intros Hsel Hst Hint Hneg Hn. apply rejected_run; trivial.
  unfold int_range in Hint. rewrite (u32_negative (deviceId a)) by lia. lia.
Qed.

Lemma negative_device_rejected_witness :
  run_executeKernel (good_driver 0) 300 (sample_args (-1)) sample_host
  = (Returned (-1),
     [EvCall GetPlatformIDsCount 0; EvCall (GetPlatformIDs 1) 0;
      EvCout MPlatformsHeader; EvCall (GetPlatformInfoSize 100) 0;
      EvCall (GetPlatformInfo 100 12) 0;
      EvCout (MPlatformLine false "Portable CL");
      EvCall (GetDeviceIDsCount 100) 0; EvCerr MInvalidDevice],
     sample_host).
Proof.
  apply (negative_device_rejected (good_driver 0) 300 (sample_args (-1))
           sample_host 100 _ eq_refl eq_refl).
  - unfold int_range. simpl. lia.
  - simpl. lia.
  - vm_compute. discriminate.
Defined.


(* ================================================================== *)
(** ** ProgramBuilder: build errors *)



Lemma is_null_false h : h <> nullptr -> is_null h = false.
Proof. intros H. unfold is_null. now apply Z.eqb_neq. Qed.

Lemma created_app t1 t2 : created (t1 ++ t2) = created t1 ++ created t2.
Proof.
  induction t1 as [|e t1 IH]; simpl; trivial.
  destruct e; simpl; rewrite ?IH; trivial. now destruct (is_null h).
Qed.




(** A driver whose compiler rejects the kernel source. *)
Definition build_fails (c : call) : cl_int :=
  match c with
  | BuildProgram _ _ _ => -11
  | _ => CL_SUCCESS
  end.

(** A text without NUL characters. *)
Definition nul_free (s : string) : Prop :=
  forallb (fun c => negb (Ascii.eqb c zero)) (list_ascii_of_string s) = true.

Lemma list_ascii_length s :
  List.length (list_ascii_of_string s) = String.length s.
Proof. induction s as [|c s IH]; simpl; congruence. Qed.









(* ================================================================== *)
(** ** Platform selection *)

(** The name [getPlatform] builds for a platform. *)
Definition platform_name (drv : Driver) (id : handle) : string :=
  let len := u64 (platformNameSize_out drv id) in
  string_of_list_ascii
    (firstn (Z.to_nat (len - 1)) (vector_fill len (platformName_out drv id) zero)).

(** No enumerated platform has the name the caller asked for. *)
Definition no_match (drv : Driver) (a : Args) : Prop :=
  forall i, 0 <= i < u32 (numPlatforms_out drv) ->
    hint_matches (platform a)
      (platform_name drv (nth (Z.to_nat i) (platforms_out drv) nullptr)) = false.

Lemma getPlatform_result drv id r t :
  getPlatform drv id = (r, t) ->
  match r with
  | Ok name => name = platform_name drv id
  | Return _ => False
  | Exit => True
  | Fault f => f = InvalidRange
  end.
Proof.
  unfold getPlatform, CL_CALL, invoke, platform_name.
  cbn [bind fst snd app].
  destruct (negb (status drv (GetPlatformInfoSize id) =? CL_SUCCESS));
    cbn [bind cout emit exit_failure ret fst snd app].
  - now intros [= <- _].
  - destruct (negb (status drv (GetPlatformInfo id _) =? CL_SUCCESS));
      cbn [bind cout emit exit_failure ret fst snd app].
    + now intros [= <- _].
    + destruct (u64 (platformNameSize_out drv id) =? 0); now intros [= <- _].
Qed.

(** The index the loop of lines 65-70 leaves in [platformIndex]: the one
    it started with, or the converted index of a platform whose name
    matches the hint. *)
Lemma platformLoop_result drv hint size written n :
  forall i platformIndex r t,
    Z.of_nat n + i = size -> 0 <= i ->
    platformLoop drv hint (vector_at size written) n i platformIndex = (r, t) ->
    match r with
    | Ok found =>
        found = platformIndex \/
        exists j, i <= j < size /\ found = i32 j /\
                  hint_matches hint
                    (platform_name drv (nth (Z.to_nat j) written nullptr)) = true
    | Return _ => False
    | Exit => True
    | Fault f => f = InvalidRange
    end.
Proof.
  induction n as [|n IH]; intros i platformIndex r t Hsize Hi; cbn [platformLoop].
  - intros [= <- _]. now left.
  - unfold vector_at at 1.
    destruct (Z.leb_spec 0 i) as [_|]; [|lia].
    destruct (Z.ltb_spec i size) as [_|]; [|lia].
    cbn [andb]. rewrite bind_ret_l.
    destruct (getPlatform drv (nth (Z.to_nat i) written nullptr))
      as [[name|v| |f] tg] eqn:G;
      pose proof (getPlatform_result _ _ _ _ G) as Hg; cbv beta iota in Hg;
      cbn [bind].
    + unfold cout, emit. cbn [bind].
      destruct (platformLoop drv hint (vector_at size written) n (i + 1) _)
        as [r' t'] eqn:L.
      intros [= <- _].
      apply IH in L; [|lia|lia].
      destruct r' as [found|v| |f]; trivial.
      destruct L as [-> | (j & Hj & -> & Hm)].
      * destruct ((platformIndex <? 0) && hint_matches hint name) eqn:Hmatch.
        -- right. exists i. apply andb_prop in Hmatch. subst name.
           repeat split; try lia. tauto.
        -- now left.
      * right. exists j. repeat split; trivial; lia.
    + contradiction.
    + now intros [= <- _].
    + now intros [= <- _].
Qed.

(** C10: platform selection indexes the enumerated platform list
    unguarded, falling back to the first enumerated platform when no
    name matches the hint.  With no platform enumerated the fallback
    index 0 is out of bounds; the access is in bounds only if at least
    one platform is enumerated, and with at least one platform (and at
    most [2^31], so that the index fits an [int]) it is in bounds. *)
Theorem platform_selection_bounds drv a :
  let n := u32 (numPlatforms_out drv) in
  status drv GetPlatformIDsCount = CL_SUCCESS ->
  status drv (GetPlatformIDs n) = CL_SUCCESS ->
  (n = 0 ->
   selectPlatform drv a
   = (Fault OutOfBounds,
      [EvCall GetPlatformIDsCount CL_SUCCESS;
       EvCall (GetPlatformIDs 0) CL_SUCCESS;
       EvCout MPlatformsHeader]) /\
   forall ver h,
     fst (fst (run_executeKernel drv ver a h)) = Undefined OutOfBounds)
  /\
  (forall platformId t, selectPlatform drv a = (Ok platformId, t) -> 1 <= n)
  /\
  (1 <= n <= 2 ^ 31 -> fst (selectPlatform drv a) <> Fault OutOfBounds)
  /\
  (forall platformId t,
      no_match drv a ->
      selectPlatform drv a = (Ok platformId, t) ->
      platformId = nth 0 (platforms_out drv) nullptr).
Proof.
  intros n Hcount Hids.
  assert (Hzero : n = 0 ->
    selectPlatform drv a
    = (Fault OutOfBounds,
       [EvCall GetPlatformIDsCount CL_SUCCESS;
        EvCall (GetPlatformIDs 0) CL_SUCCESS;
        EvCout MPlatformsHeader])).
  { intros Hn. unfold selectPlatform, CL_CALL, invoke. fold n.
    rewrite Hcount. cbn [bind fst snd app negb Z.eqb CL_SUCCESS ret].
    rewrite Hids. rewrite Hn. reflexivity. }
  pose proof (u32_range (numPlatforms_out drv)) as Hrange.
  unfold uint_range in Hrange. fold n in Hrange.
  assert (Hnat : Z.of_nat (Z.to_nat n) + 0 = n) by lia.
  assert (Hshape : forall r t,
    selectPlatform drv a = (r, t) ->
    exists found tl r' t',
      platformLoop drv (platform a) (vector_at n (platforms_out drv))
                   (Z.to_nat n) 0 (-1) = (Ok found, tl) /\
      (if negb (found =? -1)
       then vector_at n (platforms_out drv) (u64 found)
       else vector_at n (platforms_out drv) 0) = (r', t') /\
      r = r' \/
    (forall f, r = Fault f -> f = InvalidRange) /\ (forall p, r <> Ok p)).
  { intros r t. unfold selectPlatform, CL_CALL, invoke. fold n.
    rewrite Hcount. cbn [bind fst snd app negb Z.eqb CL_SUCCESS ret].
    rewrite Hids. cbn [bind fst snd app negb Z.eqb CL_SUCCESS ret cout emit].
    destruct (platformLoop drv (platform a) (vector_at n (platforms_out drv))
                           (Z.to_nat n) 0 (-1)) as [[found|v| |f] tl] eqn:L;
      pose proof (platformLoop_result _ _ _ _ _ _ _ _ _ Hnat (Z.le_refl 0) L)
        as HL;
      cbv beta iota in HL; cbn [bind].
    - destruct (if negb (found =? -1) then _ else _) as [r' t'] eqn:Hsel.
      intros [= <- _]. exists found, tl, r', t'. left. auto.
    - contradiction.
    - intros [= <- _]. exists 0, [], Exit, []. right.
      split; intros; discriminate.
    - intros [= <- _]. exists 0, [], Exit, []. right. subst f.
      split; [now intros ? [= <-]|discriminate]. }
  split; [|split; [|split]].
  - intros Hn. split; [exact (Hzero Hn)|]. intros ver h.
    unfold run_executeKernel, executeKernel, enumerate.
    rewrite (Hzero Hn). reflexivity.
  - intros platformId t Hsel.
    destruct (Z.eq_dec n 0) as [Hn|Hn]; [|lia].
    rewrite (Hzero Hn) in Hsel. discriminate.
  - intros Hn Hoob.
    destruct (Hshape _ _ (surjective_pairing (selectPlatform drv a)))
      as (found & tl & r' & t' & [(L & Hat & Hr) | (Hf & _)]).
    + apply platformLoop_result in L; [|lia|lia].
      rewrite Hoob in Hr. subst r'.
      destruct L as [-> | (j & Hj & -> & _)].
      * cbn in Hat. unfold vector_at in Hat.
        destruct (Z.ltb_spec 0 n); [|lia]. cbn in Hat. discriminate.
      * rewrite i32_small in Hat by (unfold int_range; lia).
        destruct (negb (j =? -1)); unfold vector_at in Hat.
        -- rewrite u64_small in Hat by (unfold size_range; lia).
           destruct (Z.leb_spec 0 j); [|lia].
           destruct (Z.ltb_spec j n); [|lia]. discriminate.
        -- destruct (Z.ltb_spec 0 n); [|lia]. discriminate.
    + specialize (Hf _ Hoob). discriminate.
  - intros platformId t Hno Hsel.
    destruct (Hshape _ _ Hsel)
      as (found & tl & r' & t' & [(L & Hat & Hr) | (_ & Hnok)]);
      [|now destruct (Hnok platformId)].
    subst r'. apply platformLoop_result in L; [|lia|lia].
    destruct L as [-> | (j & Hj & _ & Hm)].
    + cbn in Hat. unfold vector_at in Hat.
      destruct ((0 <=? 0) && (0 <? n)); inversion Hat. reflexivity.
    + rewrite Hno in Hm by lia. discriminate.
Qed.

Lemma platform_selection_bounds_witness :
  selectPlatform (sample_driver all_succeed sample_create 0 1 None 0)
                 (sample_args 0)
  = (Fault OutOfBounds,
     [EvCall GetPlatformIDsCount CL_SUCCESS;
      EvCall (GetPlatformIDs 0) CL_SUCCESS;
      EvCout MPlatformsHeader])
  /\ 100 = nth 0 (platforms_out (good_driver 0)) nullptr.
Proof.
  split.
  - apply (platform_selection_bounds
             (sample_driver all_succeed sample_create 0 1 None 0)
             (sample_args 0)); reflexivity.
  - eapply (platform_selection_bounds (good_driver 0) (sample_args 0)
              eq_refl eq_refl).
    + intros i _. reflexivity.
    + vm_compute. reflexivity.
Defined.


(* ================================================================== *)
(** ** ResourceLedger: the life cycle of the objects of a call *)

Definition is_mem (x : objkind * handle) : bool :=
  match fst x with
  | KMem => true
  | _ => false
  end.

(** The order in which [releaseResources] releases a set of objects
    given in creation order: the buffers first, in creation order, then
    the other objects, last created first. *)
Definition ledger_order (objects : list (objkind * handle))
  : list (objkind * handle) :=
  filter is_mem objects ++ rev (filter (fun x => negb (is_mem x)) objects).

Definition is_release (e : event) : bool :=
  match e with
  | EvRelease _ _ => true
  | _ => false
  end.

(** The kinds of the creation calls of a trace, failed ones included. *)
Fixpoint creations (t : trace) : list objkind :=
  match t with
  | [] => []
  | EvCreate c _ _ :: t' => creation_kind c :: creations t'
  | _ :: t' => creations t'
  end.

(** The order in which a call acquires its objects. *)
Definition acquisition_order : list objkind :=
  [KContext; KQueue; KProgram; KKernel; KMem; KMem; KMem; KMem].

Ltac null_facts :=
  repeat match goal with
         | H : is_null _ = _ |- _ => rewrite !H
         end;
  change (is_null nullptr) with true.

(** Once the device is known: a call that returns has released exactly
    the objects it created, in ledger order; a call that leaves the
    process has released nothing. *)
Lemma runOnDevice_ledger drv ver a dev :
  wp (runOnDevice drv ver a dev)
     (fun r t =>
        (forall v, outcome_of r = Returned v ->
                   released t = ledger_order (created t)) /\
        (r = Exit -> released t = [])).
Proof.
  apply wp_intro. wp_run.
  all: split; [intros v Hv; try discriminate Hv
              |intros Hx; try discriminate Hx; reflexivity].
  all: cbn [created released creation_kind]; null_facts; reflexivity.
Qed.

(** Once the device is known, the objects are acquired in the fixed
    order, and releases are the last thing a call does. *)
Lemma runOnDevice_order drv ver a dev :
  wp (runOnDevice drv ver a dev)
     (fun r t =>
        (exists k, creations t = firstn k acquisition_order) /\
        t = filter (fun e => negb (is_release e)) t ++ filter is_release t).
Proof.
  apply wp_intro. wp_run.
  all: split; [|reflexivity].
  all: match goal with
       | |- exists k, creations ?t = _ =>
           exists (List.length (creations t)); reflexivity
       end.
Qed.

(** The three read-backs of lines 203-206. *)
Definition is_readback (c : call) : bool :=
  match c with
  | EnqueueReadBuffer _ _ _ _ => true
  | _ => false
  end.

(** Once the device is known, [exit] is called only for one of the
    three checked read-backs, right after its diagnostic. *)
Lemma runOnDevice_exit drv ver a dev :
  wp (runOnDevice drv ver a dev)
     (fun r t =>
        r = Exit ->
        exists pre line err,
          t = pre ++ [EvCout (MClError line err)] /\
          err <> CL_SUCCESS /\
          In line [203; 205; 206] /\
          exists c, is_readback c = true /\ In (EvCall c err) pre).
Proof.
  apply wp_intro. wp_run.
  all: intros Hx; try discriminate Hx.
  all: status_facts.
  all: match goal with
       | |- exists pre line err, ?t = _ /\ _ =>
           exists (removelast t); do 2 eexists; split; [reflexivity|]
       end.
  all: split; [assumption|]; split; [cbn; tauto|].
  all: match goal with
       | H : status _ ?c <> CL_SUCCESS |- _ =>
           exists c; split; [reflexivity|]
       end.
  all: cbn [removelast]; cbn; eauto 60.
Qed.

Lemma creations_app t1 t2 : creations (t1 ++ t2) = creations t1 ++ creations t2.
Proof.
  induction t1 as [|e t1 IH]; simpl; trivial.
  destruct e; simpl; now rewrite ?IH.
Qed.

(** The enumeration stage creates and releases nothing. *)
Lemma enum_events_no_objects t :
  forallb enum_event t = true ->
  created t = [] /\ released t = [] /\ creations t = [] /\
  existsb is_release t = false.
Proof.
  induction t as [|e t IH]; simpl; [auto|].
  intros [He Ht]%andb_prop. destruct (IH Ht) as (H1 & H2 & H3 & H4).
  destruct e; try discriminate He; auto.
Qed.

Lemma stage_no_objects {A} (r : result A) t :
  stage_ok r t ->
  created t = [] /\ released t = [] /\ creations t = [] /\
  existsb is_release t = false.
Proof. intros H. apply enum_events_no_objects. now apply stage_events in H. Qed.

Lemma existsb_filter_negb (p : event -> bool) t :
  existsb p (filter (fun e => negb (p e)) t) = false.
Proof.
  induction t as [|e t IH]; simpl; trivial.
  destruct (p e) eqn:Hp; simpl; trivial. now rewrite Hp.
Qed.

Lemma forallb_filter (p : event -> bool) t : forallb p (filter p t) = true.
Proof.
  induction t as [|e t IH]; simpl; trivial.
  destruct (p e) eqn:Hp; simpl; trivial. now rewrite Hp.
Qed.

(** X1: every call of [executeKernel] that returns has released exactly
    the objects it created (the non-null results of its creation calls),
    each as often as it was created, the buffers first and then kernel,
    program, queue and context. *)
Theorem returned_call_releases_its_objects drv ver a r t v :
  executeKernel drv ver a = (r, t) ->
  outcome_of r = Returned v ->
  released t = ledger_order (created t).
Proof.
  intros E Hv.
  destruct (executeKernel_stages _ _ _ _ _ E)
    as [(dev & t0 & t1 & He & Hq & Hrun & ->) | (Hs & _)].
  - destruct (stage_no_objects (Ok dev) t0 Hq) as (Hc & Hr & _).
    pose proof (runOnDevice_ledger drv ver a dev) as Hl. unfold wp in Hl.
    rewrite Hrun in Hl. cbn [fst snd] in Hl.
    rewrite released_app, created_app, Hc, Hr. cbn [app].
    now apply (proj1 Hl v).
  - destruct (stage_no_objects _ _ Hs) as (Hc & Hr & _).
    now rewrite Hc, Hr.
Qed.

Lemma returned_call_releases_its_objects_witness :
  released (snd (executeKernel (good_driver 0) 300 (sample_args 0)))
  = ledger_order (created (snd (executeKernel (good_driver 0) 300 (sample_args 0)))).
Proof.
  eapply (returned_call_releases_its_objects (good_driver 0) 300
            (sample_args 0) _ _ 0).
  - apply surjective_pairing.
  - vm_compute. reflexivity.
Defined.

(** A driver whose read-back of the flag fails. *)
Definition readback_fails (c : call) : cl_int :=
  match c with
  | EnqueueReadBuffer _ _ _ _ => -5
  | _ => CL_SUCCESS
  end.

(** X2: when [executeKernel] ends the process with [exit(EXIT_FAILURE)],
    the last thing it did is printing the [CL_CALL] diagnostic of a
    platform or device query or of a result read-back that returned a
    status other than [CL_SUCCESS], and it has released nothing: every
    object it created is still held when the process exits. *)
Theorem exit_releases_nothing drv ver a t :
  executeKernel drv ver a = (Exit, t) ->
  released t = [] /\
  exists pre line err c,
    t = pre ++ [EvCout (MClError line err)] /\
    err <> CL_SUCCESS /\
    In (EvCall c err) pre /\
    (is_query c = true \/ is_readback c = true).
Proof.
  intros E.
  destruct (executeKernel_stages _ _ _ _ _ E)
    as [(dev & t0 & t1 & He & Hq & Hrun & ->) | (Hs & _)].
  - destruct (stage_no_objects (Ok dev) t0 Hq) as (_ & Hr & _).
    pose proof (runOnDevice_exit drv ver a dev) as Hx. unfold wp in Hx.
    pose proof (runOnDevice_ledger drv ver a dev) as Hl. unfold wp in Hl.
    rewrite Hrun in Hx, Hl. cbn [fst snd] in Hx, Hl.
    destruct (Hx eq_refl)
      as (pre & line & err & -> & Herr & _ & c & Hread & Hc).
    split.
    + rewrite released_app, Hr. now apply (proj2 Hl).
    + exists (t0 ++ pre), line, err, c. rewrite app_assoc.
      repeat split; trivial; [|now right]. apply in_or_app. now right.
  - destruct (stage_no_objects _ _ Hs) as (_ & Hr & _). split; [exact Hr|].
    destruct Hs as (pre & c & line & err & -> & Hquery & Herr & _).
    exists (pre ++ [EvCall c err]), line, err, c.
    rewrite <- app_assoc. repeat split; trivial; [|now left].
    apply in_or_app. right. now left.
Qed.

Lemma exit_releases_nothing_witness :
  let t := snd (executeKernel
                  (sample_driver readback_fails sample_create 1 1
                                 (Some "kernel"%string) 0)
                  300 (sample_args 0)) in
  List.length (created t) = 8%nat /\
  released t = [] /\
  exists pre line err c,
    t = pre ++ [EvCout (MClError line err)] /\
    err <> CL_SUCCESS /\
    In (EvCall c err) pre /\
    (is_query c = true \/ is_readback c = true).
Proof.
  split; [reflexivity|].
  apply (exit_releases_nothing
           (sample_driver readback_fails sample_create 1 1
                          (Some "kernel"%string) 0)
           300 (sample_args 0)).
  vm_compute. reflexivity.
Defined.

(** X3: [executeKernel] acquires its objects in one fixed order: context,
    queue, program, kernel and then the four buffers; the creation calls
    of every run, failed ones included, are a prefix of that sequence. *)
Theorem objects_acquired_in_order drv ver a :
  exists k,
    creations (snd (executeKernel drv ver a)) = firstn k acquisition_order.
Proof.
  destruct (executeKernel drv ver a) as [r t] eqn:E. cbn [snd].
  destruct (executeKernel_stages _ _ _ _ _ E)
    as [(dev & t0 & t1 & He & Hq & Hrun & ->) | (Hs & _)].
  - destruct (stage_no_objects (Ok dev) t0 Hq) as (_ & _ & Hc & _).
    pose proof (runOnDevice_order drv ver a dev) as Ho. unfold wp in Ho.
    rewrite Hrun in Ho. cbn [fst snd] in Ho. destruct Ho as ((k & Hk) & _).
    exists k. now rewrite creations_app, Hc.
  - destruct (stage_no_objects _ _ Hs) as (_ & _ & Hc & _).
    exists 0%nat. now rewrite Hc.
Qed.

(** X4: releases are the last thing [executeKernel] does: every trace
    splits into a part without any release followed by releases only, so
    no driver call is made on an object after the first release. *)
Theorem releases_come_last drv ver a :
  exists pre rel,
    snd (executeKernel drv ver a) = pre ++ rel /\
    existsb is_release pre = false /\
    forallb is_release rel = true.
Proof.
  destruct (executeKernel drv ver a) as [r t] eqn:E. cbn [snd].
  destruct (executeKernel_stages _ _ _ _ _ E)
    as [(dev & t0 & t1 & He & Hq & Hrun & ->) | (Hs & _)].
  - destruct (stage_no_objects (Ok dev) t0 Hq) as (_ & _ & _ & Hn).
    pose proof (runOnDevice_order drv ver a dev) as Ho. unfold wp in Ho.
    rewrite Hrun in Ho. cbn [fst snd] in Ho. destruct Ho as (_ & Hsplit).
    exists (t0 ++ filter (fun e => negb (is_release e)) t1),
      (filter is_release t1).
    split; [|split].
    + rewrite <- app_assoc. now rewrite <- Hsplit.
    + now rewrite existsb_app, Hn, existsb_filter_negb.
    + apply forallb_filter.
  - destruct (stage_no_objects _ _ Hs) as (_ & _ & _ & Hn).
    exists t, []. now rewrite app_nil_r.
Qed.


(* ================================================================== *)
(** ** BufferSet: the argument list of the kernel *)

(** X5: on every run that reaches the kernel launch, the four buffers
    were created in the order InputData, FoundFlag, OutputDigest,
    OutputNonce, the flag was cleared, and the nine kernel arguments were
    bound successfully in index order 0 to 8: data length, start nonce,
    nonce offset, batch size, difficulty and the four buffers in creation
    order; the device limit is queried and the kernel launched only then. *)
Theorem arguments_bound_in_order drv ver a r t :
  executeKernel drv ver a = (r, t) ->
  existsb is_enqueue t = true ->
  exists pre post dev ctx q k b0 b1 b2 b3 e0 e1 e2 e3 einfo g l err,
    t = pre
        ++ [ EvCreate (CreateBuffer ctx
                         (Z.lor CL_MEM_READ_ONLY CL_MEM_COPY_HOST_PTR)
                         (u64 (dataSize a * sizeof_cl_uchar))) b0 e0;
             EvCreate (CreateBuffer ctx CL_MEM_READ_WRITE sizeof_cl_int) b1 e1;
             EvCreate (CreateBuffer ctx CL_MEM_WRITE_ONLY (32 * sizeof_cl_uchar))
                      b2 e2;
             EvCreate (CreateBuffer ctx CL_MEM_WRITE_ONLY sizeof_cl_ulong) b3 e3;
             EvCall (EnqueueWriteBuffer q b1 CL_TRUE sizeof_cl_int 0) CL_SUCCESS;
             EvCall (SetKernelArg k 0 sizeof_cl_int (ArgInt (dataSize a)))
                    CL_SUCCESS;
             EvCall (SetKernelArg k 1 sizeof_cl_ulong (ArgULong (startNonce a)))
                    CL_SUCCESS;
             EvCall (SetKernelArg k 2 sizeof_cl_int (ArgInt (nonceOffset a)))
                    CL_SUCCESS;
             EvCall (SetKernelArg k 3 sizeof_cl_ulong (ArgULong (batchSize a)))
                    CL_SUCCESS;
             EvCall (SetKernelArg k 4 sizeof_cl_int (ArgInt (difficulty a)))
                    CL_SUCCESS;
             EvCall (SetKernelArg k 5 sizeof_cl_mem (ArgMem b0)) CL_SUCCESS;
             EvCall (SetKernelArg k 6 sizeof_cl_mem (ArgMem b1)) CL_SUCCESS;
             EvCall (SetKernelArg k 7 sizeof_cl_mem (ArgMem b2)) CL_SUCCESS;
             EvCall (SetKernelArg k 8 sizeof_cl_mem (ArgMem b3)) CL_SUCCESS;
             EvCall (GetDeviceInfo dev DEVICE_MAX_WORK_GROUP_SIZE) einfo;
             EvCall (EnqueueNDRangeKernel q k g l) err ]
        ++ post.
Proof.
  intros E Hreach.
  destruct (executeKernel_stages _ _ _ _ _ E)
    as [(dev & t0 & t1 & He & Hq & Hrun & ->) | (_ & _ & _ & _ & Hno & _)];
    [|congruence].
  pose proof (stage_no_enqueue (Ok dev) t0 Hq) as Hn0.
  rewrite existsb_app, Hn0 in Hreach. cbn [orb] in Hreach.
  pose proof (runOnDevice_enqueue drv ver a dev) as Hr. unfold wp in Hr.
  rewrite Hrun in Hr. cbn [fst snd] in Hr.
  destruct (Hr Hreach) as (L & err & post & HL & -> & Hpost).
  exists (t0 ++ firstn 7 (launch_trace L ver a)), post, (l_device L),
    (l_context L), (l_queue L), (l_kernel L),
    (l_data L), (l_found L), (l_output L), (l_nonce L),
    (e_data L), (e_found L), (e_output L), (e_nonce L), (e_info L).
  unfold enqueue_event. do 3 eexists.
  rewrite <- !app_assoc. reflexivity.
Qed.

Lemma arguments_bound_in_order_witness :
  exists pre post dev ctx q k b0 b1 b2 b3 e0 e1 e2 e3 einfo g l err,
    snd (executeKernel (good_driver 0) 300 (sample_args 0)) = pre
        ++ [ EvCreate (CreateBuffer ctx
                         (Z.lor CL_MEM_READ_ONLY CL_MEM_COPY_HOST_PTR)
                         (u64 (dataSize (sample_args 0) * sizeof_cl_uchar))) b0 e0;
             EvCreate (CreateBuffer ctx CL_MEM_READ_WRITE sizeof_cl_int) b1 e1;
             EvCreate (CreateBuffer ctx CL_MEM_WRITE_ONLY (32 * sizeof_cl_uchar))
                      b2 e2;
             EvCreate (CreateBuffer ctx CL_MEM_WRITE_ONLY sizeof_cl_ulong) b3 e3;
             EvCall (EnqueueWriteBuffer q b1 CL_TRUE sizeof_cl_int 0) CL_SUCCESS;
             EvCall (SetKernelArg k 0 sizeof_cl_int (ArgInt (dataSize (sample_args 0))))
                    CL_SUCCESS;
             EvCall (SetKernelArg k 1 sizeof_cl_ulong (ArgULong (startNonce (sample_args 0))))
                    CL_SUCCESS;
             EvCall (SetKernelArg k 2 sizeof_cl_int (ArgInt (nonceOffset (sample_args 0))))
                    CL_SUCCESS;
             EvCall (SetKernelArg k 3 sizeof_cl_ulong (ArgULong (batchSize (sample_args 0))))
                    CL_SUCCESS;
             EvCall (SetKernelArg k 4 sizeof_cl_int (ArgInt (difficulty (sample_args 0))))
                    CL_SUCCESS;
             EvCall (SetKernelArg k 5 sizeof_cl_mem (ArgMem b0)) CL_SUCCESS;
             EvCall (SetKernelArg k 6 sizeof_cl_mem (ArgMem b1)) CL_SUCCESS;
             EvCall (SetKernelArg k 7 sizeof_cl_mem (ArgMem b2)) CL_SUCCESS;
             EvCall (SetKernelArg k 8 sizeof_cl_mem (ArgMem b3)) CL_SUCCESS;
             EvCall (GetDeviceInfo dev DEVICE_MAX_WORK_GROUP_SIZE) einfo;
             EvCall (EnqueueNDRangeKernel q k g l) err ]
        ++ post.
Proof.
  apply (arguments_bound_in_order (good_driver 0) 300 (sample_args 0) _ _
           (surjective_pairing _)).
  vm_compute. reflexivity.
Defined.

(* ================================================================== *)
(** ** WorkPartitioner: outside the exact range *)

Lemma u64_range_of x : size_range (u64 x).
Proof. unfold size_range, u64. apply Z.mod_pos_bound. lia. Qed.

(** X6: whatever the batch size, the partitioner is undefined exactly
    when the requested or the device's group size is zero (a division by
    zero); otherwise the local size is positive and the global size is an
    exact multiple of it below [2^64], also when the rounding wraps
    around. *)
Theorem workPartition_shape batchSize threadsPerBlock maxWorkGroupSize :
  size_range maxWorkGroupSize ->
  (workPartition batchSize threadsPerBlock maxWorkGroupSize = None <->
   u64 threadsPerBlock = 0 \/ maxWorkGroupSize = 0)
  /\
  (forall l g,
      workPartition batchSize threadsPerBlock maxWorkGroupSize = Some (l, g) ->
      0 < l /\ l = Z.min (u64 threadsPerBlock) maxWorkGroupSize /\
      size_range g /\ (l | g)).
Proof.
  unfold size_range. intros Hm.
  pose proof (u64_range_of threadsPerBlock) as Ht. unfold size_range in Ht.
  unfold workPartition, globalWorkSize, localWorkSize.
  set (l := Z.min (u64 threadsPerBlock) maxWorkGroupSize).
  assert (Hl : 0 <= l) by (unfold l; lia).
  destruct (Z.eqb_spec l 0) as [E|NE]; split.
  - split; [intros _; unfold l in E; lia|reflexivity].
  - intros ? ? [=].
  - split; [discriminate|intros H; unfold l in NE; lia].
  - intros l' g [= <- <-].
    set (x := u64 (u64 (batchSize + l) - 1)).
    pose proof (u64_range_of (u64 (batchSize + l) - 1)) as Hx.
    unfold size_range in Hx. fold x in Hx.
    assert (Hq : 0 <= x / l * l <= x).
    { pose proof (Z.mul_div_le x l ltac:(lia)).
      pose proof (Z.div_pos x l ltac:(lia) ltac:(lia)). nia. }
    rewrite (u64_small (x / l * l)) by (unfold size_range; lia).
    repeat split; try lia. exists (x / l). reflexivity.
Qed.

Lemma workPartition_shape_witness :
  (256 | 0) /\ workPartition 1024 0 256 = None.
Proof.
  assert (R : size_range 256) by (unfold size_range; simpl; lia).
  split.
  - apply (proj2 (workPartition_shape (2 ^ 64 - 1) 256 256 R) 256 0).
    reflexivity.
  - apply (proj1 (workPartition_shape 1024 0 256 R)). now left.
Defined.

(** X7: a negative [threadsPerBlock] is converted to a [size_t] above
    every device limit, so the local size is the device's maximum
    work-group size. *)
Theorem negative_threads_select_device_maximum threadsPerBlock maxWorkGroupSize :
  int_range threadsPerBlock ->
  threadsPerBlock < 0 ->
  0 <= maxWorkGroupSize <= 2 ^ 64 - 2 ^ 31 ->
  localWorkSize threadsPerBlock maxWorkGroupSize = maxWorkGroupSize.
Proof.
  unfold int_range, localWorkSize, u64. intros Hr Hneg Hm.
  replace threadsPerBlock
    with (threadsPerBlock + 2 ^ 64 + (-1) * 2 ^ 64) by ring.
  rewrite Z.mod_add by lia. rewrite Z.mod_small by lia. lia.
Qed.

Lemma negative_threads_select_device_maximum_witness :
  localWorkSize (-1) 1024 = 1024.
Proof.
  apply negative_threads_select_device_maximum;
    unfold int_range; simpl; lia.
Defined.


(* ================================================================== *)
(** ** DeviceEnumerator: names, first match and device choice *)

Lemma firstn_exact {A} (l r : list A) : firstn (List.length l) (l ++ r) = l.
Proof. induction l as [|x l IH]; simpl; [now destruct r|now rewrite IH]. Qed.

(** A buffer of [len] characters into which the driver wrote a text of
    [len - 1] characters and its terminator. *)
Lemma vector_fill_terminated text :
  vector_fill (Z.of_nat (List.length text) + 1) (text ++ [zero]) zero
  = text ++ [zero].
Proof.
  unfold vector_fill.
  replace (Z.to_nat (Z.of_nat (List.length text) + 1))
    with (List.length (text ++ [zero])) by (rewrite length_app; simpl; lia).
  apply firstn_exact.
Qed.

(** X8: when the driver reports the size of a platform name with its
    terminator and then writes the name followed by NUL, [getPlatform]
    returns exactly the name, without the terminator, after the two
    queries. *)
Theorem getPlatform_returns_name drv id name :
  let len := Z.of_nat (String.length name) + 1 in
  len < 2 ^ 64 ->
  status drv (GetPlatformInfoSize id) = CL_SUCCESS ->
  platformNameSize_out drv id = len ->
  status drv (GetPlatformInfo id len) = CL_SUCCESS ->
  platformName_out drv id = list_ascii_of_string name ++ [zero] ->
  getPlatform drv id
  = (Ok name,
     [EvCall (GetPlatformInfoSize id) CL_SUCCESS;
      EvCall (GetPlatformInfo id len) CL_SUCCESS]).
Proof.
  intros len Hlen Hs1 Hsize Hs2 Hname.
  unfold getPlatform, CL_CALL, invoke. rewrite Hs1, Hsize.
  rewrite (u64_small len) by (unfold size_range, len; lia).
  cbn [bind fst snd app negb Z.eqb CL_SUCCESS ret]. rewrite Hs2.
  cbn [bind fst snd app negb Z.eqb CL_SUCCESS ret].
  destruct (Z.eqb_spec len 0) as [E|_]; [unfold len in E; lia|].
  rewrite Hname. unfold len at 2. rewrite <- list_ascii_length.
  rewrite vector_fill_terminated.
  replace (Z.to_nat (len - 1)) with (List.length (list_ascii_of_string name))
    by (unfold len; rewrite list_ascii_length; lia).
  rewrite firstn_exact, string_of_list_ascii_of_string. reflexivity.
Qed.

Lemma getPlatform_returns_name_witness :
  getPlatform (good_driver 0) 100
  = (Ok "Portable CL"%string,
     [EvCall (GetPlatformInfoSize 100) CL_SUCCESS;
      EvCall (GetPlatformInfo 100 12) CL_SUCCESS]).
Proof.
  apply (getPlatform_returns_name (good_driver 0) 100 "Portable CL");
    reflexivity.
Defined.

(** Once a platform is selected the loop keeps it. *)
Lemma platformLoop_keeps drv hint size written n :
  forall i platformIndex found t,
    0 <= platformIndex ->
    platformLoop drv hint (vector_at size written) n i platformIndex
    = (Ok found, t) ->
    found = platformIndex.
Proof.
  induction n as [|n IH]; intros i platformIndex found t Hpos;
    cbn [platformLoop].
  - now intros [= <- _].
  - destruct (vector_at size written i) as [[id|v| |f] tv]; cbn [bind];
      try discriminate.
    destruct (getPlatform drv id) as [[name|v| |f] tg]; cbn [bind];
      try discriminate.
    destruct (Z.ltb_spec platformIndex 0) as [|_]; [lia|]. cbn [andb].
    unfold cout, emit. cbn [bind].
    destruct (platformLoop drv hint (vector_at size written) n (i + 1)
                           platformIndex) as [r' t'] eqn:L.
    intros [= -> _]. now apply IH in L.
Qed.

(** The loop of lines 65-70 started without a selection ends without one
    when no name matches, and otherwise on the first platform whose name
    matches. *)
Lemma platformLoop_first drv hint size written n :
  forall i found t,
    Z.of_nat n + i = size -> 0 <= i -> size <= 2 ^ 31 ->
    platformLoop drv hint (vector_at size written) n i (-1) = (Ok found, t) ->
    (found = -1 /\
     forall k, i <= k < size ->
       hint_matches hint
         (platform_name drv (nth (Z.to_nat k) written nullptr)) = false)
    \/
    (i <= found < size /\
     hint_matches hint
       (platform_name drv (nth (Z.to_nat found) written nullptr)) = true /\
     forall k, i <= k < found ->
       hint_matches hint
         (platform_name drv (nth (Z.to_nat k) written nullptr)) = false).
Proof.
  induction n as [|n IH]; intros i found t Hsize Hi Hmax; cbn [platformLoop].
  - intros [= <- _]. left. split; [reflexivity|]. intros k Hk. lia.
  - unfold vector_at at 1.
    destruct (Z.leb_spec 0 i) as [_|]; [|lia].
    destruct (Z.ltb_spec i size) as [_|]; [|lia].
    cbn [andb]. rewrite bind_ret_l.
    destruct (getPlatform drv (nth (Z.to_nat i) written nullptr))
      as [[name|v| |f] tg] eqn:G; cbn [bind]; try discriminate.
    pose proof (getPlatform_result _ _ _ _ G) as Hg. cbv beta iota in Hg.
    subst name. unfold cout, emit. cbn [bind].
    change (-1 <? 0) with true. cbn [andb].
    destruct (hint_matches hint
                (platform_name drv (nth (Z.to_nat i) written nullptr)))
      eqn:Hm.
    + rewrite i32_small by (unfold int_range; lia).
      destruct (platformLoop drv hint (vector_at size written) n (i + 1) i)
        as [r' t'] eqn:L.
      intros [= -> _]. apply platformLoop_keeps in L; [|lia]. subst found.
      right. split; [lia|]. split; [exact Hm|]. intros k Hk. lia.
    + destruct (platformLoop drv hint (vector_at size written) n (i + 1) (-1))
        as [r' t'] eqn:L.
      intros [= -> _]. apply IH in L; [|lia|lia|lia].
      destruct L as [(-> & Hnone) | (Hf & Hmatch & Hnone)].
      * left. split; [reflexivity|]. intros k Hk.
        destruct (Z.eq_dec k i) as [->|]; [exact Hm|apply Hnone; lia].
      * right. split; [lia|]. split; [exact Hmatch|]. intros k Hk.
        destruct (Z.eq_dec k i) as [->|]; [exact Hm|apply Hnone; lia].
Qed.

(** What a successful platform selection went through. *)
Lemma selectPlatform_selected drv a platformId t :
  selectPlatform drv a = (Ok platformId, t) ->
  let n := u32 (numPlatforms_out drv) in
  exists found tl,
    platformLoop drv (platform a) (vector_at n (platforms_out drv))
                 (Z.to_nat n) 0 (-1) = (Ok found, tl) /\
    fst (if negb (found =? -1)
         then vector_at n (platforms_out drv) (u64 found)
         else vector_at n (platforms_out drv) 0) = Ok platformId.
Proof.
  intros Hsel n. revert Hsel.
  unfold selectPlatform, CL_CALL, invoke. fold n. cbn [bind fst snd app].
  destruct (negb (status drv GetPlatformIDsCount =? CL_SUCCESS));
    cbn [bind cout emit exit_failure ret fst snd app]; [discriminate|].
  destruct (negb (status drv (GetPlatformIDs n) =? CL_SUCCESS));
    cbn [bind cout emit exit_failure ret fst snd app]; [discriminate|].
  destruct (platformLoop drv (platform a) (vector_at n (platforms_out drv))
                         (Z.to_nat n) 0 (-1)) as [[found|v| |f] tl] eqn:L;
    cbn [bind]; try discriminate.
  destruct (if negb (found =? -1) then _ else _) as [r' t'] eqn:Hat.
  intros [= -> _]. exists found, tl. split; [reflexivity|].
  exact (f_equal fst Hat).
Qed.

(** X9: the first match wins: when the platform selection succeeds and
    platform [j] is the first one whose name matches the hint, the
    selected platform is the [j]-th enumerated one. *)
Theorem first_matching_platform_selected drv a platformId t j :
  selectPlatform drv a = (Ok platformId, t) ->
  u32 (numPlatforms_out drv) <= 2 ^ 31 ->
  0 <= j < u32 (numPlatforms_out drv) ->
  hint_matches (platform a)
    (platform_name drv (nth (Z.to_nat j) (platforms_out drv) nullptr)) = true ->
  (forall k, 0 <= k < j ->
     hint_matches (platform a)
       (platform_name drv (nth (Z.to_nat k) (platforms_out drv) nullptr))
     = false) ->
  platformId = nth (Z.to_nat j) (platforms_out drv) nullptr.
Proof.
  intros Hsel Hmax Hj Hmatch Hfirst.
  destruct (selectPlatform_selected _ _ _ _ Hsel) as (found & tl & L & Hat).
  apply platformLoop_first in L; [|lia|lia|lia].
  destruct L as [(_ & Hnone) | (Hf & Hm & Hnone)].
  - rewrite Hnone in Hmatch by lia. discriminate.
  - assert (found = j).
    { destruct (Z.lt_trichotomy found j) as [Hlt|[->|Hgt]]; trivial.
      - rewrite Hfirst in Hm by lia. discriminate.
      - rewrite Hnone in Hmatch by lia. discriminate. }
    subst found. revert Hat.
    destruct (Z.eqb_spec j (-1)) as [|_]; [lia|]. cbn [negb].
    rewrite u64_small by (unfold size_range; lia). unfold vector_at.
    destruct (Z.leb_spec 0 j); [|lia].
    destruct (Z.ltb_spec j (u32 (numPlatforms_out drv))); [|lia].
    cbn. now intros [= <-].
Qed.

(** A driver with two platforms of the same name. *)
Definition two_platforms : Driver :=
  {| status := all_succeed;
     create := sample_create;
     numPlatforms_out := 2;
     platforms_out := [100; 101];
     platformNameSize_out := fun _ => 12;
     platformName_out := fun _ => sample_name;
     numDevices_out := fun _ => 1;
     devices_out := fun _ => [200];
     maxWorkGroupSize_out := fun _ => 256;
     buildLogSize_out := fun _ _ => 1;
     buildLog_out := fun _ _ => [zero];
     kernel_cl := None;
     keccak_cl := None;
     found_out := 0;
     digest_out := [];
     nonce_out := 0 |}.

Definition hinted_args : Args :=
  {| platform := Some "Portable CL"%string;
     deviceId := 0;
     data := [];
     dataSize := 0;
     startNonce := 0;
     nonceOffset := 1;
     batchSize := 1;
     difficulty := 0;
     threadsPerBlock := 1;
     showDeviceInfo := false |}.

Lemma first_matching_platform_selected_witness :
  100 = nth (Z.to_nat 0) (platforms_out two_platforms) nullptr.
Proof.
  eapply (first_matching_platform_selected two_platforms hinted_args 100 _ 0).
  - vm_compute. reflexivity.
  - vm_compute. discriminate.
  - vm_compute. split; [discriminate|reflexivity].
  - vm_compute. reflexivity.
  - intros k Hk. lia.
Defined.

(** X10: a device index inside the enumerated range selects the device
    at that position of the platform's GPU device list, after the two
    device queries and nothing else (no diagnostics requested). *)
Theorem valid_device_selected drv a platformId t0 :
  let numDevices := u32 (numDevices_out drv platformId) in
  selectPlatform drv a = (Ok platformId, t0) ->
  status drv (GetDeviceIDsCount platformId) = CL_SUCCESS ->
  status drv (GetDeviceIDs platformId numDevices) = CL_SUCCESS ->
  0 <= deviceId a < numDevices ->
  showDeviceInfo a = false ->
  enumerate drv a
  = (Ok (nth (Z.to_nat (deviceId a)) (devices_out drv platformId) nullptr),
     t0 ++ [EvCall (GetDeviceIDsCount platformId) CL_SUCCESS;
            EvCall (GetDeviceIDs platformId numDevices) CL_SUCCESS]).
Proof.
  intros numDevices Hsel Hs1 Hs2 Hd Hshow.
  pose proof (u32_range (numDevices_out drv platformId)) as Hn.
  unfold uint_range in Hn. fold numDevices in Hn.
  unfold enumerate. rewrite Hsel. cbn [bind].
  unfold selectDevice, CL_CALL, invoke. fold numDevices.
  rewrite Hs1, Hshow. cbn [bind fst snd app negb Z.eqb CL_SUCCESS ret].
  rewrite (u32_small (deviceId a)) by (unfold uint_range; lia).
  destruct (Z.geb_spec (deviceId a) numDevices) as [|_]; [lia|].
  rewrite Hs2. cbn [bind fst snd app negb Z.eqb CL_SUCCESS ret].
  rewrite (u64_small (deviceId a)) by (unfold size_range; lia).
  unfold vector_at.
  destruct (Z.leb_spec 0 (deviceId a)); [|lia].
  destruct (Z.ltb_spec (deviceId a) numDevices); [|lia].
  reflexivity.
Qed.

Lemma valid_device_selected_witness :
  fst (enumerate (good_driver 0) (sample_args 0)) = Ok 200.
Proof.
  rewrite (valid_device_selected (good_driver 0) (sample_args 0) 100 _
             eq_refl eq_refl eq_refl).
  - reflexivity.
  - vm_compute. split; [discriminate|reflexivity].
  - reflexivity.
Defined.


(* ================================================================== *)
(** ** Device diagnostics *)








(* ================================================================== *)
(** ** Defined behaviour *)

(** What the environment and the caller must provide for every step of
    [executeKernel] to be defined: between 1 and [2^31] platforms, no
    platform name of size 0, a non-negative device index, a terminated
    build log, and non-zero group sizes. *)
Definition well_behaved (drv : Driver) (a : Args) : Prop :=
  1 <= u32 (numPlatforms_out drv) <= 2 ^ 31 /\
  (forall id, u64 (platformNameSize_out drv id) <> 0) /\
  0 <= deviceId a < 2 ^ 31 /\
  (forall prog dev,
      c_str (vector_fill (u64 (buildLogSize_out drv prog dev))
                         (buildLog_out drv prog dev) zero) <> None) /\
  u64 (threadsPerBlock a) <> 0 /\
  (forall dev, u64 (maxWorkGroupSize_out drv dev) <> 0).

Lemma getPlatform_defined drv id :
  u64 (platformNameSize_out drv id) <> 0 ->
  forall f, fst (getPlatform drv id) <> Fault f.
Proof.
  intros Hsize f. unfold getPlatform, CL_CALL, invoke.
  cbn [bind fst snd app].
  destruct (negb (status drv (GetPlatformInfoSize id) =? CL_SUCCESS));
    cbn [bind cout emit exit_failure ret fst snd app]; [discriminate|].
  destruct (negb (status drv (GetPlatformInfo id _) =? CL_SUCCESS));
    cbn [bind cout emit exit_failure ret fst snd app]; [discriminate|].
  destruct (Z.eqb_spec (u64 (platformNameSize_out drv id)) 0);
    [contradiction|discriminate].
Qed.

Lemma platformLoop_defined drv hint size written n :
  (forall id, u64 (platformNameSize_out drv id) <> 0) ->
  forall i platformIndex,
    Z.of_nat n + i = size -> 0 <= i ->
    forall f,
      fst (platformLoop drv hint (vector_at size written) n i platformIndex)
      <> Fault f.
Proof.
  intros Hsize.
  induction n as [|n IH]; intros i platformIndex Hn Hi f; cbn [platformLoop].
  - discriminate.
  - unfold vector_at at 1.
    destruct (Z.leb_spec 0 i) as [_|]; [|lia].
    destruct (Z.ltb_spec i size) as [_|]; [|lia].
    cbn [andb]. rewrite bind_ret_l.
    pose proof (getPlatform_defined drv (nth (Z.to_nat i) written nullptr)
                  (Hsize _)) as Hg.
    destruct (getPlatform drv (nth (Z.to_nat i) written nullptr))
      as [[name|v| |x] tg]; cbn [bind fst]; try discriminate.
    + unfold cout, emit. cbn [bind].
      specialize (IH (i + 1)
                     (if (platformIndex <? 0) && hint_matches hint name
                      then i32 i else platformIndex)
                     ltac:(lia) ltac:(lia) f).
      destruct (platformLoop drv hint (vector_at size written) n (i + 1) _)
        as [r' t']. exact IH.
    + intros [= <-]. now apply (Hg x).
Qed.

Lemma selectPlatform_defined drv a :
  1 <= u32 (numPlatforms_out drv) <= 2 ^ 31 ->
  (forall id, u64 (platformNameSize_out drv id) <> 0) ->
  forall f, fst (selectPlatform drv a) <> Fault f.
Proof.
  intros Hn Hsize f. set (n := u32 (numPlatforms_out drv)) in *.
  assert (Hnat : Z.of_nat (Z.to_nat n) + 0 = n) by lia.
  unfold selectPlatform, CL_CALL, invoke. fold n. cbn [bind fst snd app].
  destruct (negb (status drv GetPlatformIDsCount =? CL_SUCCESS));
    cbn [bind cout emit exit_failure ret fst snd app]; [discriminate|].
  destruct (negb (status drv (GetPlatformIDs n) =? CL_SUCCESS));
    cbn [bind cout emit exit_failure ret fst snd app]; [discriminate|].
  pose proof (platformLoop_defined drv (platform a) n (platforms_out drv)
                (Z.to_nat n) Hsize 0 (-1) Hnat (Z.le_refl 0)) as Hd.
  destruct (platformLoop drv (platform a) (vector_at n (platforms_out drv))
                         (Z.to_nat n) 0 (-1)) as [[found|v| |x] tl] eqn:L;
    cbn [bind fst]; try discriminate.
  - apply platformLoop_result in L; [|exact Hnat|lia].
    assert (Hat : exists pid,
      (if negb (found =? -1)
       then vector_at n (platforms_out drv) (u64 found)
       else vector_at n (platforms_out drv) 0) = (Ok pid, [])).
    { unfold vector_at. destruct L as [-> | (j & Hj & -> & _)].
      - change (negb (-1 =? -1)) with false. cbv iota.
        change (0 <=? 0) with true.
        destruct (Z.ltb_spec 0 n); [|lia]. cbn. eexists. reflexivity.
      - rewrite i32_small by (unfold int_range; lia).
        destruct (Z.eqb_spec j (-1)); [lia|]. cbn [negb].
        rewrite u64_small by (unfold size_range; lia).
        destruct (Z.leb_spec 0 j); [|lia].
        destruct (Z.ltb_spec j n); [|lia]. cbn. eexists. reflexivity. }
    destruct Hat as (pid & ->). cbn. discriminate.
  - intros [= <-]. now apply (Hd x).
Qed.

Lemma enumerate_defined drv a :
  well_behaved drv a -> forall f, fst (enumerate drv a) <> Fault f.
Proof.
  intros (Hn & Hsize & Hd & _) f. unfold enumerate.
  pose proof (selectPlatform_defined drv a Hn Hsize) as Hp.
  destruct (selectPlatform drv a) as [[pid|v| |x] tp]; cbn [bind fst];
    try discriminate; [|intros [= <-]; now apply (Hp x)].
  unfold selectDevice, CL_CALL, invoke. cbn [bind fst snd app].
  destruct (negb (status drv (GetDeviceIDsCount pid) =? CL_SUCCESS));
    cbn [bind cout cerr emit exit_failure return_ ret fst snd app];
    [discriminate|].
  rewrite (u32_small (deviceId a)) by (unfold uint_range; lia).
  destruct (Z.geb_spec (deviceId a) (u32 (numDevices_out drv pid)));
    cbn [bind cout cerr emit exit_failure return_ ret fst snd app];
    [discriminate|].
  destruct (negb (status drv (GetDeviceIDs pid _) =? CL_SUCCESS));
    cbn [bind cout cerr emit exit_failure return_ ret fst snd app];
    [discriminate|].
  rewrite (u64_small (deviceId a)) by (unfold size_range; lia).
  unfold vector_at.
  destruct (Z.leb_spec 0 (deviceId a)); [|lia].
  destruct (Z.ltb_spec (deviceId a) (u32 (numDevices_out drv pid))); [|lia].
  cbn [andb bind ret fst snd app].
  pose proof (printDeviceInfo_stage drv
                (nth (Z.to_nat (deviceId a)) (devices_out drv pid) nullptr))
    as Hinfo. unfold wp in Hinfo.
  destruct (showDeviceInfo a); [|discriminate].
  unfold printDeviceInfo, CL_CALL, invoke in *.
  cbn [bind fst snd app] in *.
  repeat (match goal with
          | |- context [negb (?s =? CL_SUCCESS)] =>
              destruct (negb (s =? CL_SUCCESS))
          end;
          cbn [bind cout emit exit_failure ret fst snd app];
          [discriminate|]).
  discriminate.
Qed.

Lemma workPartition_none batchSize threadsPerBlock maxWorkGroupSize :
  workPartition batchSize threadsPerBlock maxWorkGroupSize = None ->
  Z.min (u64 threadsPerBlock) maxWorkGroupSize = 0.
Proof.
  unfold workPartition, globalWorkSize, localWorkSize.
  destruct (Z.eqb_spec (Z.min (u64 threadsPerBlock) maxWorkGroupSize) 0);
    [trivial|discriminate].
Qed.

Lemma runOnDevice_defined drv ver a dev :
  well_behaved drv a ->
  wp (runOnDevice drv ver a dev) (fun r t => forall f, r <> Fault f).
Proof.
  intros (_ & _ & _ & Hlog & Htpb & Hmax).
  apply wp_intro. wp_run.
  all: intros f Hf; try discriminate Hf.
  - match goal with H : c_str _ = None |- _ => now apply Hlog in H end.
  - match goal with
    | H : workPartition _ _ _ = None |- _ => apply workPartition_none in H
    end.
    pose proof (u64_range_of (threadsPerBlock a)).
    pose proof (u64_range_of (maxWorkGroupSize_out drv dev)).
    specialize (Hmax dev). unfold size_range in *. lia.
Qed.

(** X12: with between 1 and [2^31] platforms, no platform name of size
    zero, a non-negative device index, a NUL-terminated build log and
    non-zero group sizes, no step of [executeKernel] is undefined: no
    vector is indexed out of bounds, no string is built from an invalid
    range or read past its buffer, and nothing is divided by zero. *)
Theorem executeKernel_defined drv ver a h :
  well_behaved drv a ->
  forall f, fst (fst (run_executeKernel drv ver a h)) <> Undefined f.
Proof.
  intros Hwb f. unfold run_executeKernel, executeKernel.
  pose proof (enumerate_defined drv a Hwb) as He.
  destruct (enumerate drv a) as [[dev|v| |x] t0]; cbn [bind fst outcome_of];
    try discriminate.
  - pose proof (runOnDevice_defined drv ver a dev Hwb) as Hr. unfold wp in Hr.
    destruct (runOnDevice drv ver a dev) as [[v|v| |x] t1];
      cbn [fst outcome_of]; try discriminate.
    now destruct (Hr x).
  - now destruct (He x).
Qed.

Lemma executeKernel_defined_witness :
  fst (fst (run_executeKernel (good_driver 0) 300 (sample_args 0) sample_host))
  <> Undefined DivisionByZero.
Proof.
  apply executeKernel_defined. unfold well_behaved.
  repeat split; try (vm_compute; congruence); intros; vm_compute; congruence.
Defined.


(* ================================================================== *)
(** ** ProgramBuilder: the build log *)

Lemma c_str_terminated s :
  nul_free s -> c_str (list_ascii_of_string s ++ [zero]) = Some s.
Proof.
  unfold nul_free. induction s as [|c s IH]; simpl.
  - reflexivity.
  - intros [Hc Hs]%andb_prop. apply negb_true_iff in Hc. rewrite Hc.
    now rewrite IH.
Qed.

(** X13: when compilation fails and the driver reports the size of the
    build log with its terminator and writes the log followed by NUL,
    [buildKernel] writes the whole log to the error stream, releases
    program, queue and context in this order and returns [-1]; the
    status codes of the two log queries are not looked at. *)
Theorem build_log_printed_in_full drv ver dev ctx q fullSource program e log :
  let options := ("-D CL_TARGET_OPENCL_VERSION=" ++ to_string ver)%string in
  let logSize := Z.of_nat (String.length log) + 1 in
  ctx <> nullptr -> q <> nullptr ->
  create drv (CreateProgramWithSource ctx fullSource) = (program, e) ->
  program <> nullptr ->
  status drv (BuildProgram program dev options) <> CL_SUCCESS ->
  logSize < 2 ^ 64 ->
  buildLogSize_out drv program dev = logSize ->
  buildLog_out drv program dev = list_ascii_of_string log ++ [zero] ->
  nul_free log ->
  buildKernel drv ver dev ctx q fullSource
  = (Return (-1),
     [EvCreate (CreateProgramWithSource ctx fullSource) program e;
      EvCall (BuildProgram program dev options)
             (status drv (BuildProgram program dev options));
      EvCall (GetProgramBuildInfoSize program dev)
             (status drv (GetProgramBuildInfoSize program dev));
      EvCall (GetProgramBuildInfo program dev logSize)
             (status drv (GetProgramBuildInfo program dev logSize));
      EvCerr (MBuildError log);
      EvRelease KProgram program;
      EvRelease KQueue q;
      EvRelease KContext ctx]).
Proof.
  intros options logSize Hc Hq Hp Hpn Hb Hlen Hsize Hlog Hnul.
  unfold buildKernel, construct. rewrite Hp. cbn [bind fst snd app].
  rewrite (is_null_false _ Hpn). unfold invoke. cbn [bind fst snd app].
  fold options.
  destruct (Z.eqb_spec (status drv (BuildProgram program dev options))
                       CL_SUCCESS) as [|_]; [contradiction|].
  cbn [negb bind fst snd app]. rewrite Hsize, Hlog.
  rewrite (u64_small logSize) by (unfold size_range, logSize; lia).
  assert (Hbuf : vector_fill logSize (list_ascii_of_string log ++ [zero]) zero
                 = list_ascii_of_string log ++ [zero]).
  { unfold logSize. rewrite <- list_ascii_length.
    apply vector_fill_terminated. }
  rewrite Hbuf, (c_str_terminated _ Hnul).
  unfold releaseResources, release.
  rewrite (is_null_false _ Hc), (is_null_false _ Hq), (is_null_false _ Hpn).
  reflexivity.
Qed.

Lemma build_log_printed_in_full_witness :
  In (EvCerr (MBuildError "error: foo"))
     (snd (buildKernel
             (sample_driver build_fails sample_create 1 1 None 0)
             300 200 1000 2000 "source")).
Proof.
  rewrite (build_log_printed_in_full
             (sample_driver build_fails sample_create 1 1 None 0)
             300 200 1000 2000 "source" 3000 0 "error: foo");
    try reflexivity; try discriminate.
  cbn. tauto.
Defined.


(* ================================================================== *)
(** ** BufferSet and DispatchEngine: the remaining paths *)



(** X15: [allocateBuffers] attempts all four creations before it looks
    at any result; when at least one of them returned a null handle it
    reports the failure, releases the buffers that do exist and then
    kernel, program, queue and context, and returns [-1]. *)
Theorem allocation_failure_releases_the_rest
        drv a ctx q program kernel b0 b1 b2 b3 e0 e1 e2 e3 :
  create drv (CreateBuffer ctx (Z.lor CL_MEM_READ_ONLY CL_MEM_COPY_HOST_PTR)
                           (u64 (dataSize a * sizeof_cl_uchar))) = (b0, e0) ->
  create drv (CreateBuffer ctx CL_MEM_READ_WRITE sizeof_cl_int) = (b1, e1) ->
  create drv (CreateBuffer ctx CL_MEM_WRITE_ONLY (32 * sizeof_cl_uchar))
    = (b2, e2) ->
  create drv (CreateBuffer ctx CL_MEM_WRITE_ONLY sizeof_cl_ulong) = (b3, e3) ->
  existsb is_null [b0; b1; b2; b3] = true ->
  allocateBuffers drv a ctx q program kernel
  = (Return (-1),
     [EvCreate (CreateBuffer ctx (Z.lor CL_MEM_READ_ONLY CL_MEM_COPY_HOST_PTR)
                             (u64 (dataSize a * sizeof_cl_uchar))) b0 e0;
      EvCreate (CreateBuffer ctx CL_MEM_READ_WRITE sizeof_cl_int) b1 e1;
      EvCreate (CreateBuffer ctx CL_MEM_WRITE_ONLY (32 * sizeof_cl_uchar)) b2 e2;
      EvCreate (CreateBuffer ctx CL_MEM_WRITE_ONLY sizeof_cl_ulong) b3 e3;
      EvCerr MAllocFailed]
     ++ releases (release_order ctx q program kernel [b0; b1; b2; b3])).
Proof.
  intros H0 H1 H2 H3 Hnull.
  unfold allocateBuffers, construct. rewrite H0, H1, H2, H3.
  cbn [bind fst snd app]. rewrite Hnull.
  unfold cerr, emit. cbn [bind fst snd app].
  rewrite releaseResources_trace by (simpl; lia).
  change (Z.to_nat 4) with 4%nat.
  cbn [bind return_ firstn fst snd app]. now rewrite app_nil_r.
Qed.

(** A driver that cannot allocate the output buffers. *)
Definition no_output_buffers (c : creation) : handle * cl_int :=
  match c with
  | CreateBuffer _ 2 _ => (nullptr, -4)
  | _ => sample_create c
  end.

Lemma allocation_failure_releases_the_rest_witness :
  released
    (snd (allocateBuffers
            (sample_driver all_succeed no_output_buffers 1 1 None 0)
            (sample_args 0) 1000 2000 3000 4000))
  = [(KMem, 5440); (KMem, 5014); (KKernel, 4000); (KProgram, 3000);
     (KQueue, 2000); (KContext, 1000)].
Proof.
  rewrite (allocation_failure_releases_the_rest
             (sample_driver all_succeed no_output_buffers 1 1 None 0)
             (sample_args 0) 1000 2000 3000 4000
             5440 5014 nullptr nullptr 0 0 (-4) (-4));
    reflexivity.
Defined.

(** The ten calls of lines 175-184. *)
Definition binding_calls (a : Args) (q kernel b0 b1 b2 b3 : handle) : list call :=
  [ EnqueueWriteBuffer q b1 CL_TRUE sizeof_cl_int 0;
    SetKernelArg kernel 0 sizeof_cl_int (ArgInt (dataSize a));
    SetKernelArg kernel 1 sizeof_cl_ulong (ArgULong (startNonce a));
    SetKernelArg kernel 2 sizeof_cl_int (ArgInt (nonceOffset a));
    SetKernelArg kernel 3 sizeof_cl_ulong (ArgULong (batchSize a));
    SetKernelArg kernel 4 sizeof_cl_int (ArgInt (difficulty a));
    SetKernelArg kernel 5 sizeof_cl_mem (ArgMem b0);
    SetKernelArg kernel 6 sizeof_cl_mem (ArgMem b1);
    SetKernelArg kernel 7 sizeof_cl_mem (ArgMem b2);
    SetKernelArg kernel 8 sizeof_cl_mem (ArgMem b3) ].

(** X16: [bindArguments] has no short circuit: it always issues the
    flag write and all nine argument bindings, whatever their status
    codes.  It goes on exactly when every one of them returned
    [CL_SUCCESS]; otherwise it prints the bitwise or of the ten codes,
    releases everything and returns [-1]. *)
Theorem bindArguments_issues_every_call
        drv a ctx q program kernel b0 b1 b2 b3 :
  let calls := binding_calls a q kernel b0 b1 b2 b3 in
  let issued := map (fun c => EvCall c (status drv c)) calls in
  let error := fold_left Z.lor (map (status drv) calls) 0 in
  (Forall (fun c => status drv c = CL_SUCCESS) calls ->
   bindArguments drv a ctx q program kernel [b0; b1; b2; b3]
   = (Ok tt, issued))
  /\
  (~ Forall (fun c => status drv c = CL_SUCCESS) calls ->
   error <> CL_SUCCESS /\
   bindArguments drv a ctx q program kernel [b0; b1; b2; b3]
   = (Return (-1),
      issued ++ EvCerr (MError error)
             :: releases (release_order ctx q program kernel [b0; b1; b2; b3]))).
Proof.
  intros calls issued error.
  assert (Hrun :
    bindArguments drv a ctx q program kernel [b0; b1; b2; b3]
    = if negb (error =? CL_SUCCESS)
      then (Return (-1),
            issued ++ EvCerr (MError error)
                   :: releases (release_order ctx q program kernel
                                              [b0; b1; b2; b3]))
      else (Ok tt, issued)).
  { unfold bindArguments, invoke. cbn [nth bind fst snd app].
    change (Z.lor (Z.lor (Z.lor (Z.lor (Z.lor (Z.lor (Z.lor (Z.lor (Z.lor
              (status drv (EnqueueWriteBuffer q b1 CL_TRUE sizeof_cl_int 0))
              (status drv (SetKernelArg kernel 0 sizeof_cl_int
                                        (ArgInt (dataSize a)))))
              (status drv (SetKernelArg kernel 1 sizeof_cl_ulong
                                        (ArgULong (startNonce a)))))
              (status drv (SetKernelArg kernel 2 sizeof_cl_int
                                        (ArgInt (nonceOffset a)))))
              (status drv (SetKernelArg kernel 3 sizeof_cl_ulong
                                        (ArgULong (batchSize a)))))
              (status drv (SetKernelArg kernel 4 sizeof_cl_int
                                        (ArgInt (difficulty a)))))
              (status drv (SetKernelArg kernel 5 sizeof_cl_mem (ArgMem b0))))
              (status drv (SetKernelArg kernel 6 sizeof_cl_mem (ArgMem b1))))
              (status drv (SetKernelArg kernel 7 sizeof_cl_mem (ArgMem b2))))
              (status drv (SetKernelArg kernel 8 sizeof_cl_mem (ArgMem b3))))
      with error.
    destruct (negb (error =? CL_SUCCESS)); [|reflexivity].
    unfold cerr, emit. cbn [bind fst snd app].
    rewrite releaseResources_trace by (simpl; lia).
    change (Z.to_nat 4) with 4%nat.
    cbn [bind return_ firstn fst snd app]. now rewrite app_nil_r. }
  assert (Hall : error = CL_SUCCESS <->
                 Forall (fun c => status drv c = CL_SUCCESS) calls).
  { unfold error, calls, binding_calls. cbn [map fold_left].
    rewrite Z.lor_0_l. split.
    - intros H. repeat (apply lor_success in H; destruct H as [H ?]).
      repeat constructor; assumption.
    - intros H.
      repeat match goal with
             | H : Forall _ (_ :: _) |- _ => inversion H; subst; clear H
             end.
      repeat match goal with
             | H : status _ _ = CL_SUCCESS |- _ => rewrite H; clear H
             end.
      reflexivity. }
  split.
  - intros H. apply Hall in H. rewrite Hrun, H. reflexivity.
  - intros H. assert (Hne : error <> CL_SUCCESS) by (intros E; apply H, Hall, E).
    split; [exact Hne|]. rewrite Hrun.
    destruct (Z.eqb_spec error CL_SUCCESS); [contradiction|reflexivity].
Qed.

(** A driver on which the flag cannot be cleared. *)
Definition write_fails (c : call) : cl_int :=
  match c with
  | EnqueueWriteBuffer _ _ _ _ _ => -5
  | _ => CL_SUCCESS
  end.

Lemma bindArguments_issues_every_call_witness :
  fst (bindArguments (sample_driver write_fails sample_create 1 1 None 0)
                     (sample_args 0) 1000 2000 3000 4000
                     [5440; 5014; 5052; 5028]) = Return (-1).
Proof.
  assert (Hfails :
    ~ Forall (fun c => status (sample_driver write_fails sample_create 1 1 None 0) c
                     = CL_SUCCESS)
        (binding_calls (sample_args 0) 2000 4000 5440 5014 5052 5028)).
  { intros H. inversion H as [|c l Hc _]. discriminate Hc. }
  destruct (proj2 (bindArguments_issues_every_call
                     (sample_driver write_fails sample_create 1 1 None 0)
                     (sample_args 0) 1000 2000 3000 4000
                     5440 5014 5052 5028) Hfails) as [_ E].
  exact (f_equal fst E).
Defined.


(* ================================================================== *)
(** ** ProgramBuilder: what is built *)

Lemma is_null_neq h : is_null h = false -> h <> nullptr.
Proof. unfold is_null. now intros H%Z.eqb_neq. Qed.

(** Once the device is known: the program that is built. *)
Lemma runOnDevice_build drv ver a dev :
  wp (runOnDevice drv ver a dev)
     (fun r t =>
        forall prog d options err,
          In (EvCall (BuildProgram prog d options) err) t ->
          d = dev /\
          options = ("-D CL_TARGET_OPENCL_VERSION=" ++ to_string ver)%string /\
          prog <> nullptr /\
          exists kernelSource keccakSource ctx e,
            kernel_cl drv = Some kernelSource /\
            keccak_cl drv = Some keccakSource /\
            In (EvCreate (CreateProgramWithSource ctx
                  (keccakSource ++ String "010" EmptyString ++ kernelSource)) prog e) t).
Proof.
  apply wp_intro. wp_run.
  all: intros prog d options err Hin; cbn [In] in Hin.
  all: repeat (destruct Hin as [Hin|Hin]; [try discriminate Hin|]).
  all: try contradiction.
  all: injection Hin as <- <- <- <-.
  all: split; [reflexivity|]; split; [reflexivity|].
  all: split; [apply is_null_neq; assumption|].
  all: do 4 eexists; split; [reflexivity|]; split; [reflexivity|].
  all: cbn [In]; eauto 10.
Qed.

(** X17: whenever [executeKernel] builds a program, it builds it for the
    device the enumeration selected, with the option string
    [-D CL_TARGET_OPENCL_VERSION=<version in decimal>], and the program
    is the non-null result of a creation from the text of
    utils/keccak.cl, a line feed and the text of kernel.cl, both of which
    could be opened. *)
Theorem program_built_from_both_files drv ver a prog d options err :
  In (EvCall (BuildProgram prog d options) err) (snd (executeKernel drv ver a)) ->
  fst (enumerate drv a) = Ok d /\
  options = ("-D CL_TARGET_OPENCL_VERSION=" ++ to_string ver)%string /\
  prog <> nullptr /\
  exists kernelSource keccakSource ctx e,
    kernel_cl drv = Some kernelSource /\
    keccak_cl drv = Some keccakSource /\
    In (EvCreate (CreateProgramWithSource ctx
          (keccakSource ++ String "010" EmptyString ++ kernelSource)) prog e)
       (snd (executeKernel drv ver a)).
Proof.
  destruct (executeKernel drv ver a) as [r t] eqn:E. cbn [snd]. intros Hin.
  assert (Hno : forall t0, forallb enum_event t0 = true ->
                           ~ In (EvCall (BuildProgram prog d options) err) t0).
  { intros t0 Ht0 H0. rewrite forallb_forall in Ht0.
    specialize (Ht0 _ H0). discriminate Ht0. }
  destruct (executeKernel_stages _ _ _ _ _ E)
    as [(dev & t0 & t1 & He & Hq & Hrun & ->) | (Hs & _)].
  - pose proof (runOnDevice_build drv ver a dev) as Hb. unfold wp in Hb.
    rewrite Hrun in Hb. cbn [fst snd] in Hb.
    apply in_app_or in Hin. destruct Hin as [Hin|Hin].
    + destruct (Hno t0 (stage_events (Ok dev) t0 Hq) Hin).
    + destruct (Hb _ _ _ _ Hin)
        as (-> & -> & Hp & ks & kc & ctx & e & Hks & Hkc & Hc).
      rewrite He. repeat split; trivial.
      exists ks, kc, ctx, e. repeat split; trivial.
      apply in_or_app. now right.
  - destruct (Hno t (stage_events _ _ Hs) Hin).
Qed.

Lemma program_built_from_both_files_witness :
  fst (enumerate (good_driver 0) (sample_args 0)) = Ok 200 /\
  ("-D CL_TARGET_OPENCL_VERSION=300" =
   "-D CL_TARGET_OPENCL_VERSION=" ++ to_string 300)%string /\
  3000 <> nullptr /\
  exists kernelSource keccakSource ctx e,
    kernel_cl (good_driver 0) = Some kernelSource /\
    keccak_cl (good_driver 0) = Some keccakSource /\
    In (EvCreate (CreateProgramWithSource ctx
          (keccakSource ++ String "010" EmptyString ++ kernelSource)) 3000 e)
       (snd (executeKernel (good_driver 0) 300 (sample_args 0))).
Proof.
  apply (program_built_from_both_files (good_driver 0) 300 (sample_args 0)
           3000 200 "-D CL_TARGET_OPENCL_VERSION=300" 0).
  vm_compute. tauto.
Defined.


(* ================================================================== *)
(** ** DispatchEngine: the status codes that are not tested *)

(** The two driver calls whose status code [executeKernel] drops: the
    device-limit query of line 192 and [clFinish] at line 202. *)
Definition unchecked (c : call) : bool :=
  match c with
  | Finish _ => true
  | GetDeviceInfo _ DEVICE_MAX_WORK_GROUP_SIZE => true
  | _ => false
  end.

(** The driver that answers those two calls with the codes [s] and is
    [drv] in everything else. *)
Definition with_status (drv : Driver) (s : call -> cl_int) : Driver :=
  {| status := fun c => if unchecked c then s c else status drv c;
     create := create drv;
     numPlatforms_out := numPlatforms_out drv;
     platforms_out := platforms_out drv;
     platformNameSize_out := platformNameSize_out drv;
     platformName_out := platformName_out drv;
     numDevices_out := numDevices_out drv;
     devices_out := devices_out drv;
     maxWorkGroupSize_out := maxWorkGroupSize_out drv;
     buildLogSize_out := buildLogSize_out drv;
     buildLog_out := buildLog_out drv;
     kernel_cl := kernel_cl drv;
     keccak_cl := keccak_cl drv;
     found_out := found_out drv;
     digest_out := digest_out drv;
     nonce_out := nonce_out drv |}.

(** The same event with the code of an unchecked call replaced. *)
Definition relabel (s : call -> cl_int) (e : event) : event :=
  match e with
  | EvCall c _ => if unchecked c then EvCall c (s c) else e
  | _ => e
  end.

(** [m'] ends as [m] does and does the same, up to those codes. *)
Definition same_run {A} (s : call -> cl_int) (m' m : M A) : Prop :=
  m' = (fst m, map (relabel s) (snd m)).

Lemma sim_bind {A B} s (m' m : M A) (k' k : A -> M B) :
  same_run s m' m -> (forall x, same_run s (k' x) (k x)) ->
  same_run s (bind m' k') (bind m k).
Proof.
  unfold same_run. intros -> Hk. destruct m as [[x|v| |f] t]; cbn; trivial.
  rewrite (Hk x). destruct (k x) as [r t']. cbn. now rewrite map_app.
Qed.

Lemma sim_ignored {A} s drv c (k' k : M A) :
  unchecked c = true -> same_run s k' k ->
  same_run s (bind (invoke (with_status drv s) c) (fun _ => k'))
             (bind (invoke drv c) (fun _ => k)).
Proof.
  unfold same_run, invoke. intros Hc ->. cbn. rewrite Hc.
  destruct k as [r t]. cbn. now rewrite Hc.
Qed.

Lemma sim_CL_CALL s line (m' m : M cl_int) :
  same_run s m' m -> same_run s (CL_CALL line m') (CL_CALL line m).
Proof.
  intros H. unfold CL_CALL. apply sim_bind; [exact H|].
  intros err. now destruct (negb (err =? CL_SUCCESS)).
Qed.

Lemma sim_release s k h : same_run s (release k h) (release k h).
Proof. unfold release. now destruct (is_null h). Qed.

Lemma sim_releaseBuffers s buffers n :
  forall i, same_run s (releaseBuffers buffers n i) (releaseBuffers buffers n i).
Proof.
  induction n as [|n IH]; intros i; cbn [releaseBuffers]; [reflexivity|].
  destruct (nth_error buffers i); [|reflexivity].
  apply sim_bind; [apply sim_release|]. intros _. apply IH.
Qed.

Lemma sim_releaseResources s context commandQueue program kernel buffers n :
  same_run s (releaseResources context commandQueue program kernel buffers n)
             (releaseResources context commandQueue program kernel buffers n).
Proof.
  unfold releaseResources.
  repeat (apply sim_bind; [|intros _]);
    first [apply sim_releaseBuffers | apply sim_release].
Qed.

Lemma sim_vector_at s n written i :
  same_run s (vector_at n written i) (vector_at n written i).
Proof. unfold vector_at. now destruct ((0 <=? i) && (i <? n)). Qed.

(** One statement of the program on both sides. *)
Ltac sim_step :=
  cbv beta zeta;
  lazymatch goal with
  | |- same_run _ (bind _ _) (bind _ _) =>
      first [ apply sim_ignored; [reflexivity|]
            | apply sim_bind; [|intros ?] ]
  | |- same_run _ (CL_CALL _ _) (CL_CALL _ _) => apply sim_CL_CALL
  | |- same_run _ (releaseResources _ _ _ _ _ _) _ => apply sim_releaseResources
  | |- same_run _ (vector_at _ _ _) _ => apply sim_vector_at
  | |- same_run _ (match ?x' with _ => _ end) (match ?x with _ => _ end) =>
      change x' with x; destruct x eqn:?
  | |- same_run _ _ _ => exact eq_refl
  end.

Lemma sim_getPlatform s drv id :
  same_run s (getPlatform (with_status drv s) id) (getPlatform drv id).
Proof. unfold getPlatform. repeat sim_step. Qed.

Lemma sim_platformLoop s drv hint platforms n :
  (forall i, same_run s (platforms i) (platforms i)) ->
  forall i platformIndex,
    same_run s (platformLoop (with_status drv s) hint platforms n i platformIndex)
               (platformLoop drv hint platforms n i platformIndex).
Proof.
  intros Hp. induction n as [|n IH]; intros i platformIndex;
    cbn [platformLoop]; [reflexivity|].
  apply sim_bind; [apply Hp|]. intros id.
  apply sim_bind; [apply sim_getPlatform|]. intros name.
  apply sim_bind; [reflexivity|]. intros _. apply IH.
Qed.

Lemma sim_selectPlatform s drv a :
  same_run s (selectPlatform (with_status drv s) a) (selectPlatform drv a).
Proof.
  unfold selectPlatform.
  repeat first [ apply sim_platformLoop; intros ?; apply sim_vector_at
               | sim_step ].
Qed.

Lemma sim_printDeviceInfo s drv dev :
  s (GetDeviceInfo dev DEVICE_MAX_WORK_GROUP_SIZE)
  = status drv (GetDeviceInfo dev DEVICE_MAX_WORK_GROUP_SIZE) ->
  same_run s (printDeviceInfo (with_status drv s) dev) (printDeviceInfo drv dev).
Proof.
  intros Hs. unfold printDeviceInfo.
  repeat first [ sim_step
               | unfold same_run, invoke; cbn; rewrite Hs; reflexivity ].
Qed.

Lemma sim_selectDevice s drv a platformId :
  (showDeviceInfo a = true ->
   forall dev, s (GetDeviceInfo dev DEVICE_MAX_WORK_GROUP_SIZE)
               = status drv (GetDeviceInfo dev DEVICE_MAX_WORK_GROUP_SIZE)) ->
  same_run s (selectDevice (with_status drv s) a platformId)
             (selectDevice drv a platformId).
Proof.
  intros Hs. unfold selectDevice.
  repeat first [ apply sim_printDeviceInfo; now apply Hs | sim_step ].
Qed.

Lemma sim_enumerate s drv a :
  (showDeviceInfo a = true ->
   forall dev, s (GetDeviceInfo dev DEVICE_MAX_WORK_GROUP_SIZE)
               = status drv (GetDeviceInfo dev DEVICE_MAX_WORK_GROUP_SIZE)) ->
  same_run s (enumerate (with_status drv s) a) (enumerate drv a).
Proof.
  intros Hs. unfold enumerate.
  apply sim_bind; [apply sim_selectPlatform|].
  intros platformId. now apply sim_selectDevice.
Qed.

Lemma sim_createQueue s drv ver dev :
  same_run s (createQueue (with_status drv s) ver dev) (createQueue drv ver dev).
Proof. unfold createQueue. repeat sim_step. Qed.

Lemma sim_loadSource s drv context commandQueue :
  same_run s (loadSource (with_status drv s) context commandQueue)
             (loadSource drv context commandQueue).
Proof. unfold loadSource. repeat sim_step. Qed.

Lemma sim_buildKernel s drv ver dev context commandQueue fullSource :
  same_run s (buildKernel (with_status drv s) ver dev context commandQueue fullSource)
             (buildKernel drv ver dev context commandQueue fullSource).
Proof. unfold buildKernel. repeat sim_step. Qed.

Lemma sim_allocateBuffers s drv a context commandQueue program kernel :
  same_run s (allocateBuffers (with_status drv s) a context commandQueue program kernel)
             (allocateBuffers drv a context commandQueue program kernel).
Proof. unfold allocateBuffers. repeat sim_step. Qed.

Lemma sim_bindArguments s drv a context commandQueue program kernel buffers :
  same_run s (bindArguments (with_status drv s) a context commandQueue program
                            kernel buffers)
             (bindArguments drv a context commandQueue program kernel buffers).
Proof. unfold bindArguments. repeat sim_step. Qed.

Lemma sim_dispatch s drv a dev context commandQueue program kernel buffers :
  same_run s (dispatch (with_status drv s) a dev context commandQueue program
                       kernel buffers)
             (dispatch drv a dev context commandQueue program kernel buffers).
Proof. unfold dispatch, readBuffer. repeat sim_step. Qed.

Lemma sim_runOnDevice s drv ver a dev :
  same_run s (runOnDevice (with_status drv s) ver a dev) (runOnDevice drv ver a dev).
Proof.
  unfold runOnDevice.
  apply sim_bind; [apply sim_createQueue|]. intros [context commandQueue].
  apply sim_bind; [apply sim_loadSource|]. intros fullSource.
  apply sim_bind; [apply sim_buildKernel|]. intros [program kernel].
  apply sim_bind; [apply sim_allocateBuffers|]. intros buffers.
  apply sim_bind; [apply sim_bindArguments|]. intros _.
  apply sim_dispatch.
Qed.

Lemma host_after_relabel s t : forall h,
  host_after (map (relabel s) t) h = host_after t h.
Proof.
  unfold host_after. induction t as [|e t IH]; intros h; cbn [map fold_left];
    [reflexivity|].
  rewrite IH. f_equal. destruct e; cbn [relabel]; trivial.
  now destruct (unchecked c).
Qed.

(** X18: the status codes of [clFinish] (line 202) and of the
    device-limit query of line 192 are never tested.  Whatever codes the
    driver returns for these two calls, [executeKernel] ends the same
    way, performs the same calls, prints the same text and leaves the
    same values in the caller's storage; only the two codes themselves
    differ.  (With device diagnostics on, the same query is also made
    under [CL_CALL] at line 94, where its code is tested and so is kept.) *)
Theorem unchecked_status_codes_are_ignored drv ver a s h :
  (showDeviceInfo a = true ->
   forall dev, s (GetDeviceInfo dev DEVICE_MAX_WORK_GROUP_SIZE)
               = status drv (GetDeviceInfo dev DEVICE_MAX_WORK_GROUP_SIZE)) ->
  run_executeKernel (with_status drv s) ver a h
  = let '(o, t, h') := run_executeKernel drv ver a h in
    (o, map (relabel s) t, h').
Proof.
  intros Hs.
  assert (E : same_run s (executeKernel (with_status drv s) ver a)
                         (executeKernel drv ver a)).
  { unfold executeKernel. apply sim_bind; [now apply sim_enumerate|].
    intros dev. apply sim_runOnDevice. }
  unfold run_executeKernel. rewrite E.
  destruct (executeKernel drv ver a) as [r t]. cbn [fst snd].
  now rewrite host_after_relabel.
Qed.

(** A driver whose [clFinish] and device-limit query both fail. *)
Definition failing_unchecked : call -> cl_int := fun _ => -36.

Lemma unchecked_status_codes_are_ignored_witness :
  run_executeKernel (with_status (good_driver 1) failing_unchecked) 300
                    (sample_args 0) sample_host
  = let '(o, t, h') := run_executeKernel (good_driver 1) 300 (sample_args 0)
                                         sample_host in
    (o, map (relabel failing_unchecked) t, h').
Proof.
  apply (unchecked_status_codes_are_ignored (good_driver 1) 300 (sample_args 0)
           failing_unchecked sample_host).
  intros H. discriminate H.
Defined.
